(** * Convex decoder and data-migration manager of rotki, shallow embedding

    Sources:
    - rotkehlchen/chain/ethereum/modules/convex/decoder.py
      ([ConvexDecoder._decode_convex_events],
       [ConvexDecoder._maybe_enrich_convex_transfers])
    - rotkehlchen/tests/data_migrations/test_migrations.py, the tests of
      [DataMigrationManager.maybe_migrate_data] (the manager is modelled
      from the spec). *)

From Stdlib Require Import ZArith QArith String Ascii List Bool Lia.
Import ListNotations.
Open Scope Z_scope.
Open Scope string_scope.

(* ------------------------------------------------------------------ *)
(** ** Python values used by the acting-party comparison *)

(** The three operands of the chained comparison in the decoder are Python
    objects: [event.location_label] is an [Optional[str]], the two others
    are checksummed address strings.  Addresses are kept as the integer
    they encode. *)
Inductive pyobj : Type :=
| PyNone
| PyBool (b : bool)
| PyStr (a : Z).

(** Python [==] on these objects. *)
Definition py_eq (x y : pyobj) : bool :=
  match x, y with
  | PyNone, PyNone => true
  | PyBool a, PyBool b => Bool.eqb a b
  | PyStr a, PyStr b => Z.eqb a b
  | _, _ => false
  end.

(** Python [x is False]: only the [False] singleton is identical to it. *)
Definition py_is_False (x : pyobj) : bool :=
  match x with
  | PyBool false => true
  | _ => false
  end.

(** Python evaluates [a == b == c is False] as
    [(a == b) and (b == c) and (c is False)]. *)
Definition py_chain_eq_eq_is_False (a b c : pyobj) : bool :=
  py_eq a b && py_eq b c && py_is_False c.

(* ------------------------------------------------------------------ *)
(** ** Data model *)

Inductive HistoryEventType : Type :=
| TRADE | STAKING | DEPOSIT | WITHDRAWAL | TRANSFER | SPEND | RECEIVE
| INFORMATIONAL.

Inductive HistoryEventSubType : Type :=
| NONE | REWARD | DEPOSIT_ASSET | REMOVE_ASSET | FEE | RETURN_WRAPPED
| RECEIVE_WRAPPED | GENERATE_DEBT | PAYBACK_DEBT.

Definition event_type_eqb (x y : HistoryEventType) : bool :=
  match x, y with
  | TRADE, TRADE | STAKING, STAKING | DEPOSIT, DEPOSIT
  | WITHDRAWAL, WITHDRAWAL | TRANSFER, TRANSFER | SPEND, SPEND
  | RECEIVE, RECEIVE | INFORMATIONAL, INFORMATIONAL => true
  | _, _ => false
  end.

Definition event_subtype_eqb (x y : HistoryEventSubType) : bool :=
  match x, y with
  | NONE, NONE | REWARD, REWARD | DEPOSIT_ASSET, DEPOSIT_ASSET
  | REMOVE_ASSET, REMOVE_ASSET | FEE, FEE | RETURN_WRAPPED, RETURN_WRAPPED
  | RECEIVE_WRAPPED, RECEIVE_WRAPPED | GENERATE_DEBT, GENERATE_DEBT
  | PAYBACK_DEBT, PAYBACK_DEBT => true
  | _, _ => false
  end.

(** The mutable fields of an [EvmEvent] that the decoder reads or writes.
    [balance.amount] is an [FVal] (a decimal), kept as a rational. *)
Record HistoryEvent : Type := mkEvent {
  event_type : HistoryEventType;
  event_subtype : HistoryEventSubType;
  asset : string;                 (* asset identifier *)
  balance_amount : Q;
  address : option Z;             (* counterparty address, may be None *)
  location_label : option Z;      (* acting user address, may be None *)
  notes : option string;
  counterparty : option string
}.

(** [EvmTxReceiptLog]: emitting address, 32-byte topics and data bytes. *)
Record TxLog : Type := mkLog {
  log_address : Z;
  topics : list Z;
  data : list Byte.byte
}.

(** The fields of [EvmTransaction] the decoder uses. *)
Record EvmTransaction : Type := mkTx {
  from_address : Z
}.

Record DecoderContext : Type := mkDecoderContext {
  tx_log : TxLog;
  transaction : EvmTransaction;
  decoded_events : list HistoryEvent
}.

Record EnricherContext : Type := mkEnricherContext {
  etx_log : TxLog;
  etransaction : EvmTransaction;
  event : HistoryEvent
}.

(** A resolved crypto asset: what the decoder reads of it. *)
Record CryptoAsset : Type := mkCryptoAsset {
  symbol : string;
  decimals : nat
}.

(** The two exceptions [resolve_to_crypto_asset] may raise. *)
Inductive AssetError : Type :=
| UnknownAsset (identifier : string)
| WrongAssetType (identifier : string).

(** Exceptions that may leave the rules. *)
Inductive PyException : Type :=
| IndexError
| AssetException (e : AssetError).

(** How a Python call ends: it returns a value or raises. *)
Inductive Outcome (A : Type) : Type :=
| Returned (v : A)
| Raised (e : PyException).
Arguments Returned {A} v.
Arguments Raised {A} e.

(** [DEFAULT_DECODING_OUTPUT] and [DEFAULT_ENRICHMENT_OUTPUT] are the empty
    outputs of their types; the rules never return anything else. *)
Inductive DecodingOutput : Type := DEFAULT_DECODING_OUTPUT.
Inductive TransferEnrichmentOutput : Type := DEFAULT_ENRICHMENT_OUTPUT.

(** A user notification issued by [DecoderInterface.notify_user]. *)
Record Notification : Type := mkNotification {
  notified_event : HistoryEvent;
  notified_counterparty : string
}.

Definition CPT_CONVEX : string := "convex".

(** [ZERO_ADDRESS = '0x0000000000000000000000000000000000000000']. *)
Definition ZERO_ADDRESS : Z := 0.

(** [hex_or_bytes_to_int] on a byte string: big-endian unsigned integer. *)
Definition hex_or_bytes_to_int (bs : list Byte.byte) : Z :=
  fold_left (fun acc b => acc * 256 + Z.of_nat (Byte.to_nat b)) bs 0.

(** [hex_or_bytes_to_address] on a 32-byte topic: its last 20 bytes. *)
Definition hex_or_bytes_to_address (topic : Z) : Z :=
  topic mod 2 ^ 160.

(** Python slice [bs[0:32]]. *)
Definition slice_0_32 (bs : list Byte.byte) : list Byte.byte := firstn 32 bs.

(** Modelled from the spec (Amount Normalizer, [asset_normalized_value] of
    rotkehlchen.chain.ethereum.utils, not under src/): the raw base-unit
    amount divided by ten to the asset's decimals. *)
Definition asset_normalized_value (amount_raw : Z) (a : CryptoAsset) : Q :=
  inject_Z amount_raw / inject_Z (10 ^ Z.of_nat (decimals a)).

(** Python [None != ZERO_ADDRESS] and [addr != ZERO_ADDRESS]. *)
Definition address_is_not_zero (a : option Z) : bool :=
  match a with
  | Some x => negb (Z.eqb x ZERO_ADDRESS)
  | None => true
  end.

Definition address_is_zero (a : option Z) : bool :=
  match a with
  | Some x => Z.eqb x ZERO_ADDRESS
  | None => false
  end.

(** [event.location_label] as a Python object. *)
Definition label_obj (l : option Z) : pyobj :=
  match l with
  | Some a => PyStr a
  | None => PyNone
  end.

(** Field updates of an event (Python attribute assignment). *)
Definition set_event_type (t : HistoryEventType) (e : HistoryEvent) : HistoryEvent :=
  mkEvent t (event_subtype e) (asset e) (balance_amount e) (address e)
    (location_label e) (notes e) (counterparty e).

Definition set_event_subtype (s : HistoryEventSubType) (e : HistoryEvent) : HistoryEvent :=
  mkEvent (event_type e) s (asset e) (balance_amount e) (address e)
    (location_label e) (notes e) (counterparty e).

Definition set_notes (n : string) (e : HistoryEvent) : HistoryEvent :=
  mkEvent (event_type e) (event_subtype e) (asset e) (balance_amount e)
    (address e) (location_label e) (Some n) (counterparty e).

Definition set_counterparty (c : string) (e : HistoryEvent) : HistoryEvent :=
  mkEvent (event_type e) (event_subtype e) (asset e) (balance_amount e)
    (address e) (location_label e) (notes e) (Some c).

(** Python [x in xs] for a list or set of 32-byte values. *)
Definition z_in (x : Z) (xs : list Z) : bool := existsb (Z.eqb x) xs.

(* ------------------------------------------------------------------ *)
(** ** The Convex decoder *)

Section Convex.

(** The asset resolver: [event.asset.resolve_to_crypto_asset()] returns a
    crypto asset or raises [UnknownAsset] / [WrongAssetType]. *)
Variable resolve_to_crypto_asset : string -> AssetError + CryptoAsset.

(** The static tables of rotkehlchen.chain.ethereum.modules.convex.constants
    and of the generic decoding constants: the pool table [CONVEX_POOLS]
    (address to pool name), the signature sets [WITHDRAWAL_TOPICS] and
    [REWARD_TOPICS], the allow-list [CONVEX_ABRAS_HEX] and the transfer
    signature [ERC20_OR_ERC721_TRANSFER]. *)
Variable CONVEX_POOLS : list (Z * string).
Variables WITHDRAWAL_TOPICS REWARD_TOPICS CONVEX_ABRAS_HEX : list Z.
Variable ERC20_OR_ERC721_TRANSFER : Z.

(** [str(FVal)], used when an amount is written into an f-string. *)
Variable fval_str : Q -> string.

(** [CONVEX_POOLS.get(addr)]: [Some name] iff [addr in CONVEX_POOLS]. *)
Fixpoint pool_name_in (addr : Z) (pools : list (Z * string)) : option string :=
  match pools with
  | [] => None
  | (k, v) :: rest => if Z.eqb k addr then Some v else pool_name_in addr rest
  end.

Definition pool_name (addr : Z) : option string := pool_name_in addr CONVEX_POOLS.

(** The note written by each branch of the decoder and of the enricher. *)
Definition pool_suffix (log_addr : Z) : string :=
  match pool_name log_addr with
  | Some name => " " ++ name ++ " pool"
  | None => ""
  end.

Definition return_note (e : HistoryEvent) (ca : CryptoAsset) (log_addr : Z) : string :=
  "Return " ++ fval_str (balance_amount e) ++ " " ++ symbol ca ++ " to convex"
    ++ pool_suffix log_addr.

Definition deposit_note (e : HistoryEvent) (ca : CryptoAsset) (log_addr : Z) : string :=
  "Deposit " ++ fval_str (balance_amount e) ++ " " ++ symbol ca ++ " into convex"
    ++ pool_suffix log_addr.

Definition withdraw_note (e : HistoryEvent) (ca : CryptoAsset) (log_addr : Z) : string :=
  "Withdraw " ++ fval_str (balance_amount e) ++ " " ++ symbol ca ++ " from convex"
    ++ pool_suffix log_addr.

Definition reward_note (e : HistoryEvent) (ca : CryptoAsset) (log_addr : Z) : string :=
  "Claim " ++ fval_str (balance_amount e) ++ " " ++ symbol ca ++ " reward from convex"
    ++ pool_suffix log_addr.

(** The skip test of lines 53-57:
    [event.location_label == context.transaction.from_address ==
     interacted_address is False or
     (event.address != ZERO_ADDRESS and event.balance.amount != amount)]. *)
Definition skip_event (from : Z) (interacted_address : Z) (amount : Q)
    (ev : HistoryEvent) : bool :=
  py_chain_eq_eq_is_False (label_obj (location_label ev)) (PyStr from)
    (PyStr interacted_address)
  || (address_is_not_zero (address ev) && negb (Qeq_bool (balance_amount ev) amount)).

(** One iteration of the loop of [_decode_convex_events]: the event after
    the iteration and the notifications it issued. *)
Definition decode_event (amount_raw interacted_address from log_addr topic0 : Z)
    (ev : HistoryEvent) : HistoryEvent * list Notification :=
  match resolve_to_crypto_asset (asset ev) with
  | inl _ => (ev, [mkNotification ev CPT_CONVEX])
  | inr crypto_asset =>
      let amount := asset_normalized_value amount_raw crypto_asset in
      if skip_event from interacted_address amount ev then (ev, [])
      else if event_type_eqb (event_type ev) SPEND
              && event_subtype_eqb (event_subtype ev) NONE then
        if address_is_zero (address ev) then
          let ev1 := set_counterparty CPT_CONVEX
                       (set_event_subtype RETURN_WRAPPED ev) in
          (set_notes (return_note ev1 crypto_asset log_addr) ev1, [])
        else
          let ev1 := set_counterparty CPT_CONVEX (set_event_type DEPOSIT ev) in
          (set_notes (deposit_note ev1 crypto_asset log_addr) ev1, [])
      else if event_type_eqb (event_type ev) RECEIVE
              && event_subtype_eqb (event_subtype ev) NONE then
        if z_in topic0 WITHDRAWAL_TOPICS then
          let ev1 := set_event_type WITHDRAWAL ev in
          let ev2 := set_notes (withdraw_note ev1 crypto_asset log_addr) ev1 in
          (set_counterparty CPT_CONVEX ev2, [])
        else if z_in topic0 REWARD_TOPICS then
          let ev1 := set_counterparty CPT_CONVEX
                       (set_event_subtype REWARD ev) in
          (set_notes (reward_note ev1 crypto_asset log_addr) ev1, [])
        else (ev, [])
      else (ev, [])
  end.

(** The [for event in context.decoded_events] loop. *)
Fixpoint decode_loop (amount_raw interacted_address from log_addr topic0 : Z)
    (evs : list HistoryEvent) : list HistoryEvent * list Notification :=
  match evs with
  | [] => ([], [])
  | ev :: rest =>
      let '(ev', ns) := decode_event amount_raw interacted_address from log_addr topic0 ev in
      let '(rest', ns') := decode_loop amount_raw interacted_address from log_addr topic0 rest in
      (ev' :: rest', app ns ns')
  end.

(** [ConvexDecoder._decode_convex_events]: the events after the call (they
    are mutated in place), the notifications issued and how the call ends.
    [context.tx_log.topics[1]] raises [IndexError] on a log with fewer than
    two topics, before any event is looked at. *)
Definition _decode_convex_events (context : DecoderContext)
    : list HistoryEvent * list Notification * Outcome DecodingOutput :=
  let amount_raw := hex_or_bytes_to_int (slice_0_32 (data (tx_log context))) in
  match topics (tx_log context) with
  | topic0 :: topic1 :: _ =>
      let interacted_address := hex_or_bytes_to_address topic1 in
      let '(evs, ns) := decode_loop amount_raw interacted_address
                          (from_address (transaction context))
                          (log_address (tx_log context)) topic0
                          (decoded_events context) in
      (evs, ns, Returned DEFAULT_DECODING_OUTPUT)
  | _ => (decoded_events context, [], Raised IndexError)
  end.

(* ------------------------------------------------------------------ *)
(** ** The Convex enricher *)

(** [ConvexDecoder._maybe_enrich_convex_transfers]: the event after the
    call and how the call ends.  The [and] chain short-circuits, so
    [topics[1]] is read only when [topics[0]] is the transfer signature. *)
Definition _maybe_enrich_convex_transfers (context : EnricherContext)
    : HistoryEvent * Outcome TransferEnrichmentOutput :=
  let ev := event context in
  match nth_error (topics (etx_log context)) 0 with
  | None => (ev, Raised IndexError)
  | Some topic0 =>
      if negb (Z.eqb topic0 ERC20_OR_ERC721_TRANSFER)
      then (ev, Returned DEFAULT_ENRICHMENT_OUTPUT)
      else match nth_error (topics (etx_log context)) 1 with
      | None => (ev, Raised IndexError)
      | Some topic1 =>
          if z_in topic1 CONVEX_ABRAS_HEX
             && py_eq (label_obj (location_label ev))
                      (PyStr (from_address (etransaction context)))
             && event_type_eqb (event_type ev) RECEIVE
             && event_subtype_eqb (event_subtype ev) NONE
          then
            match resolve_to_crypto_asset (asset ev) with
            | inl err => (ev, Raised (AssetException err))
            | inr crypto_asset =>
                let ev1 := set_event_subtype REWARD ev in
                let ev2 := set_notes
                             (reward_note ev1 crypto_asset (log_address (etx_log context))) ev1 in
                (set_counterparty CPT_CONVEX ev2, Returned DEFAULT_ENRICHMENT_OUTPUT)
            end
          else (ev, Returned DEFAULT_ENRICHMENT_OUTPUT)
      end
  end.

End Convex.

(* ------------------------------------------------------------------ *)
(** ** The data-migration manager *)

(** Decimal rendering of a version number, as in an f-string. *)
Fixpoint nat_digits (fuel n : nat) (acc : string) : string :=
  match fuel with
  | O => acc
  | S fuel' =>
      let acc' := String (Ascii.ascii_of_nat (48 + Nat.modulo n 10)) acc in
      if Nat.ltb n 10 then acc' else nat_digits fuel' (Nat.div n 10) acc'
  end.

Definition str_nat (n : nat) : string := nat_digits (S n) n "".

Section Migrations.

(** The state the migration functions act on (the rotki instance). *)
Variable World : Type.

(** Modelled from the spec ([MigrationRecord] of
    rotkehlchen.data_migrations.manager, not under src/): a version and a
    function that either completes, giving the new state, or raises an
    exception with the given message.  A step runs in one scoped write
    transaction, so a raising step leaves the state as it was. *)
Record MigrationRecord : Type := mkMigrationRecord {
  version : nat;
  function : World -> World + string
}.

(** The persisted and observable state around a run: the world, the
    [last_data_migration] setting (absent on a fresh database), the error
    messages recorded in the message aggregator, and the versions whose
    function was invoked (a trace of the calls). *)
Record MigState : Type := mkMigState {
  world : World;
  last_data_migration : option nat;
  errors : list string;
  invoked : list nat
}.

Definition failed_migration_msg (v : nat) (message : string) : string :=
  "Failed to run soft data migration to version " ++ str_nat v ++ " due to "
    ++ message.

(** Insertion by version, keeping the list ascending. *)
Fixpoint insert_by_version (r : MigrationRecord) (l : list MigrationRecord)
    : list MigrationRecord :=
  match l with
  | [] => [r]
  | x :: xs =>
      if Nat.leb (version r) (version x) then r :: x :: xs
      else x :: insert_by_version r xs
  end.

Fixpoint sort_by_version (l : list MigrationRecord) : list MigrationRecord :=
  match l with
  | [] => []
  | x :: xs => insert_by_version x (sort_by_version xs)
  end.

(** Modelled from the spec (step 2 of [maybe_migrate_data]): the
    migrations with a version above the marker (an absent marker counts as
    0), ascending by version. *)
Definition select_migrations (marker : option nat) (l : list MigrationRecord)
    : list MigrationRecord :=
  let m := match marker with Some m => m | None => 0%nat end in
  sort_by_version (filter (fun r => Nat.ltb m (version r)) l).

(** The highest version among the registered migrations
    ([LAST_DATA_MIGRATION]). *)
Definition max_version (l : list MigrationRecord) : nat :=
  fold_right (fun r acc => Nat.max (version r) acc) 0%nat l.

(** Modelled from the spec (step 4 of [maybe_migrate_data]): run the
    selected migrations in order; a completed one moves the marker to its
    version at once, the first raising one records one error and stops the
    run.  Also returns the versions that completed and the failing version
    with its message, if any. *)
Fixpoint run_migrations (todo : list MigrationRecord) (s : MigState)
    : MigState * list nat * option (nat * string) :=
  match todo with
  | [] => (s, [], None)
  | r :: rest =>
      let s1 := mkMigState (world s) (last_data_migration s) (errors s)
                  (app (invoked s) [version r]) in
      match function r (world s1) with
      | inr message =>
          (mkMigState (world s1) (last_data_migration s1)
             (app (errors s1) [failed_migration_msg (version r) message])
             (invoked s1),
           [], Some (version r, message))
      | inl w' =>
          let s2 := mkMigState w' (Some (version r)) (errors s1) (invoked s1) in
          let '(s3, completed, failure) := run_migrations rest s2 in
          (s3, version r :: completed, failure)
      end
  end.

(** Modelled from the spec ([DataMigrationManager.maybe_migrate_data], not
    under src/) and its tests.  [registered] is the module's full migration
    list, whose highest version is [LAST_DATA_MIGRATION] (a module constant,
    which the tests do not patch); [MIGRATION_LIST] is the list the manager
    selects from (the tests patch it).  Each completed migration commits its
    version at once (spec 4.4 step 4d); a run in which every selected
    migration completes ends by writing [LAST_DATA_MIGRATION], as
    [test_migration_1] shows: it runs only migration 1 under a patched
    [MIGRATION_LIST] and expects [LAST_DATA_MIGRATION].  A fresh database on
    which nothing is selected starts at [LAST_DATA_MIGRATION]. *)
Definition maybe_migrate_data (registered MIGRATION_LIST : list MigrationRecord)
    (s : MigState) : MigState * list nat * option (nat * string) :=
  match select_migrations (last_data_migration s) MIGRATION_LIST with
  | [] =>
      match last_data_migration s with
      | Some _ => (s, [], None)
      | None =>
          (mkMigState (world s) (Some (max_version registered)) (errors s)
             (invoked s), [], None)
      end
  | selected =>
      let '(s', completed, failure) := run_migrations selected s in
      match failure with
      | None =>
          (mkMigState (world s') (Some (max_version registered)) (errors s')
             (invoked s'), completed, None)
      | Some _ => (s', completed, failure)
      end
  end.

End Migrations.

(* ================================================================== *)
(** * Properties of the decoder *)

Section DecoderFacts.

Variable resolve : string -> AssetError + CryptoAsset.
Variable pools : list (Z * string).
Variables wtopics rtopics : list Z.
Variable fstr : Q -> string.

Let step := decode_event resolve pools wtopics rtopics fstr.
Let loop := decode_loop resolve pools wtopics rtopics fstr.

(** The loop handles every event on its own: the events after it are the
    per-event results, the notifications those of each event in order. *)
Lemma decode_loop_fst (raw ia from la t0 : Z) (evs : list HistoryEvent) :
  fst (loop raw ia from la t0 evs) = map (fun e => fst (step raw ia from la t0 e)) evs.
Proof.
  unfold loop, step. induction evs as [|e rest IH]; [reflexivity|].
  simpl. destruct (decode_event _ _ _ _ _ _ _ _ _ _ e) as [e' ns].
  destruct (decode_loop _ _ _ _ _ _ _ _ _ _ rest) as [rest' ns'] eqn:Hl.
  simpl in *. now rewrite IH.
Qed.

Lemma decode_loop_snd (raw ia from la t0 : Z) (evs : list HistoryEvent) :
  snd (loop raw ia from la t0 evs) = flat_map (fun e => snd (step raw ia from la t0 e)) evs.
Proof.
  unfold loop, step. induction evs as [|e rest IH]; [reflexivity|].
  simpl. destruct (decode_event _ _ _ _ _ _ _ _ _ _ e) as [e' ns].
  destruct (decode_loop _ _ _ _ _ _ _ _ _ _ rest) as [rest' ns'] eqn:Hl.
  simpl in *. now rewrite IH.
Qed.

(** On a log with two topics the rule returns the default output and the
    per-event results. *)
Lemma decode_convex_events_unfold (ctx : DecoderContext) (t0 t1 : Z) (rest : list Z) :
  topics (tx_log ctx) = t0 :: t1 :: rest ->
  _decode_convex_events resolve pools wtopics rtopics fstr ctx =
  (map (fun e => fst (step (hex_or_bytes_to_int (slice_0_32 (data (tx_log ctx))))
                       (hex_or_bytes_to_address t1) (from_address (transaction ctx))
                       (log_address (tx_log ctx)) t0 e)) (decoded_events ctx),
   flat_map (fun e => snd (step (hex_or_bytes_to_int (slice_0_32 (data (tx_log ctx))))
                       (hex_or_bytes_to_address t1) (from_address (transaction ctx))
                       (log_address (tx_log ctx)) t0 e)) (decoded_events ctx),
   Returned DEFAULT_DECODING_OUTPUT).
Proof.
  intros Ht. unfold _decode_convex_events. rewrite Ht.
  rewrite <- (decode_loop_fst _ (hex_or_bytes_to_address t1)),
          <- (decode_loop_snd _ (hex_or_bytes_to_address t1)).
  unfold loop. destruct (decode_loop _ _ _ _ _ _ _ _ _ _ _); reflexivity.
Qed.

(** On a log with fewer than two topics no event is touched. *)
Lemma decode_convex_events_short (ctx : DecoderContext) :
  (length (topics (tx_log ctx)) < 2)%nat ->
  _decode_convex_events resolve pools wtopics rtopics fstr ctx =
  (decoded_events ctx, [], Raised IndexError).
Proof.
  intros Hl. unfold _decode_convex_events.
  destruct (topics (tx_log ctx)) as [|a [|b r]]; simpl in *; auto; lia.
Qed.

End DecoderFacts.

(** The chained comparison [a == b == c is False] is false whenever [c] is
    a string, so the acting-party part of the skip test never holds. *)
Lemma chain_is_False_str (a b : pyobj) (c : Z) :
  py_chain_eq_eq_is_False a b (PyStr c) = false.
Proof.
  unfold py_chain_eq_eq_is_False. simpl. now rewrite andb_false_r.
Qed.

Lemma skip_event_amount_only (from ia : Z) (amount : Q)
    (ev : HistoryEvent) :
  skip_event from ia amount ev =
  address_is_not_zero (address ev) && negb (Qeq_bool (balance_amount ev) amount).
Proof.
  unfold skip_event. now rewrite chain_is_False_str.
Qed.

(** A concrete transaction: every asset resolves to an 18-decimal token,
    no pool is known, signature 7 is a withdrawal and 8 a reward
    signature; notes print amounts as "1". *)
Definition ex_resolve (_ : string) : AssetError + CryptoAsset :=
  inr (mkCryptoAsset "cvxCRV" 18).

Definition ex_decode (ctx : DecoderContext) :=
  _decode_convex_events ex_resolve [] [7] [8] (fun _ => "1") ctx.

(** A deposit log emitted by address 5, topic[1] = user 2, data empty (raw
    amount 0); the transaction is sent by 1 and the event belongs to 3. *)
Definition ex_spend_event : HistoryEvent :=
  mkEvent SPEND NONE "cvxCRV" 0 (Some 9) (Some 3) None None.

Definition ex_ctx_mismatch : DecoderContext :=
  mkDecoderContext (mkLog 5 [6; 2] []) (mkTx 1) [ex_spend_event].

(** ** C1 (code bug)
    The acting-party correlation is not enforced: on [ex_ctx_mismatch] the
    event's location_label (3), the transaction's from_address (1) and the
    address of topic 1 (2) are pairwise different, yet the rule mutates the
    event into a deposit, because [3 == 1 == 2 is False] is [False] and
    only the amount test can skip an event. *)
Lemma C1_acting_party_not_enforced :
  ex_decode ex_ctx_mismatch =
  ([mkEvent DEPOSIT NONE "cvxCRV" 0 (Some 9) (Some 3)
      (Some "Deposit 1 cvxCRV into convex") (Some "convex")],
   [], Returned DEFAULT_DECODING_OUTPUT).
Proof. vm_compute. reflexivity. Qed.

(** ** C2
    Amount correlation: an event whose counterparty address is not the zero
    address and whose amount differs from the log's raw amount normalized
    by the event's asset decimals comes out of the rule unmutated. *)
Theorem C2_amount_mismatch_unmutated
    (resolve : string -> AssetError + CryptoAsset) (pools : list (Z * string))
    (wtopics rtopics : list Z) (fstr : Q -> string)
    (ctx : DecoderContext) (i : nat) (e : HistoryEvent)
    (evs' : list HistoryEvent) (ns : list Notification)
    (out : Outcome DecodingOutput) :
  _decode_convex_events resolve pools wtopics rtopics fstr ctx = (evs', ns, out) ->
  nth_error (decoded_events ctx) i = Some e ->
  address e <> Some ZERO_ADDRESS ->
  (forall ca, resolve (asset e) = inr ca ->
     ~ (balance_amount e ==
        asset_normalized_value (hex_or_bytes_to_int (slice_0_32 (data (tx_log ctx)))) ca)%Q) ->
  nth_error evs' i = Some e.
Proof.
  intros Hrun Hi Hz Hamt.
  destruct (topics (tx_log ctx)) as [|t0 [|t1 rest]] eqn:Ht.
  1-2: rewrite decode_convex_events_short in Hrun by (rewrite Ht; simpl; lia);
       injection Hrun as <- _ _; exact Hi.
  rewrite (decode_convex_events_unfold resolve pools wtopics rtopics fstr ctx t0 t1 rest Ht) in Hrun.
  injection Hrun as <- _ _.
  rewrite nth_error_map, Hi. simpl. f_equal.
  unfold decode_event. destruct (resolve (asset e)) as [err|ca] eqn:Hr; [reflexivity|].
  rewrite skip_event_amount_only.
  assert (Hnz : address_is_not_zero (address e) = true).
  { unfold address_is_not_zero. destruct (address e) as [a|]; [|reflexivity].
    apply negb_true_iff, Z.eqb_neq. intros ->. now apply Hz. }
  assert (Hq : Qeq_bool (balance_amount e)
                 (asset_normalized_value (hex_or_bytes_to_int (slice_0_32 (data (tx_log ctx)))) ca)
               = false).
  { apply not_true_iff_false. intros Hb. apply Qeq_bool_iff in Hb. exact (Hamt ca eq_refl Hb). }
  now rewrite Hnz, Hq.
Qed.

(** C2 at a concrete input: a 1-token event against a log of raw amount 0. *)
Lemma C2_amount_mismatch_unmutated_witness :
  let e := mkEvent SPEND NONE "cvxCRV" 1 (Some 9) (Some 1) None None in
  let ctx := mkDecoderContext (mkLog 5 [6; 1] []) (mkTx 1) [e] in
  nth_error (fst (fst (ex_decode ctx))) 0 = Some e.
Proof.
  intros e ctx.
  apply (C2_amount_mismatch_unmutated ex_resolve [] [7] [8] (fun _ => "1") ctx 0 e
           (fst (fst (ex_decode ctx))) (snd (fst (ex_decode ctx))) (snd (ex_decode ctx))).
  - reflexivity.
  - reflexivity.
  - discriminate.
  - intros ca Hr. injection Hr as <-. vm_compute. discriminate.
Defined.

(** The result for the event at position [i] of a log with two topics. *)
Lemma decode_nth (resolve : string -> AssetError + CryptoAsset)
    (pools : list (Z * string)) (wtopics rtopics : list Z) (fstr : Q -> string)
    (ctx : DecoderContext) (t0 t1 : Z) (rest : list Z) (i : nat) (e : HistoryEvent) :
  topics (tx_log ctx) = t0 :: t1 :: rest ->
  nth_error (decoded_events ctx) i = Some e ->
  nth_error (fst (fst (_decode_convex_events resolve pools wtopics rtopics fstr ctx))) i =
  Some (fst (decode_event resolve pools wtopics rtopics fstr
               (hex_or_bytes_to_int (slice_0_32 (data (tx_log ctx))))
               (hex_or_bytes_to_address t1) (from_address (transaction ctx))
               (log_address (tx_log ctx)) t0 e)).
Proof.
  intros Ht Hi.
  rewrite (decode_convex_events_unfold resolve pools wtopics rtopics fstr ctx t0 t1 rest Ht).
  simpl. now rewrite nth_error_map, Hi.
Qed.

(** ** C5
    RECEIVE branch: an event at (RECEIVE, NONE) that passes the
    correlation test becomes a WITHDRAWAL with the convex tag and a
    withdraw note when topic 0 is a withdrawal signature, gets subtype
    REWARD with the convex tag and a reward note when topic 0 is a reward
    signature, and is left as it is when topic 0 is in neither set (the two
    signature sets being disjoint). *)
Theorem C5_receive_branch
    (resolve : string -> AssetError + CryptoAsset) (pools : list (Z * string))
    (wtopics rtopics : list Z) (fstr : Q -> string)
    (ctx : DecoderContext) (t0 t1 : Z) (rest : list Z) (i : nat)
    (e : HistoryEvent) (ca : CryptoAsset) :
  (forall t, z_in t wtopics = true -> z_in t rtopics = false) ->
  topics (tx_log ctx) = t0 :: t1 :: rest ->
  nth_error (decoded_events ctx) i = Some e ->
  event_type e = RECEIVE ->
  event_subtype e = NONE ->
  resolve (asset e) = inr ca ->
  skip_event (from_address (transaction ctx)) (hex_or_bytes_to_address t1)
    (asset_normalized_value (hex_or_bytes_to_int (slice_0_32 (data (tx_log ctx)))) ca) e
    = false ->
  let evs' := fst (fst (_decode_convex_events resolve pools wtopics rtopics fstr ctx)) in
  let la := log_address (tx_log ctx) in
  (z_in t0 wtopics = true ->
     let ev1 := set_event_type WITHDRAWAL e in
     nth_error evs' i =
     Some (set_counterparty CPT_CONVEX (set_notes (withdraw_note pools fstr ev1 ca la) ev1)))
  /\ (z_in t0 rtopics = true ->
     let ev1 := set_counterparty CPT_CONVEX (set_event_subtype REWARD e) in
     nth_error evs' i = Some (set_notes (reward_note pools fstr ev1 ca la) ev1))
  /\ (z_in t0 wtopics = false -> z_in t0 rtopics = false -> nth_error evs' i = Some e).
Proof.
  intros Hdisj Ht Hi Hty Hsub Hr Hskip evs' la.
  unfold evs'. rewrite (decode_nth resolve pools wtopics rtopics fstr ctx t0 t1 rest i e Ht Hi).
  unfold decode_event. rewrite Hr, Hskip, Hty, Hsub. simpl.
  repeat split.
  - intros Hw. now rewrite Hw.
  - intros Hrw. rewrite Hrw.
    destruct (z_in t0 wtopics) eqn:Hw; [|reflexivity].
    rewrite (Hdisj t0 Hw) in Hrw. discriminate.
  - intros Hw Hrw. now rewrite Hw, Hrw.
Qed.

(** C5 at a concrete input: a reward claim (signature 8) of 1 token
    (raw 10^18, one 32-byte data word) by user 1. *)
Definition ex_raw_one : list Byte.byte :=
  Eval vm_compute in
  map (fun k => match Byte.of_nat k with Some b => b | None => Byte.x00 end)
    (repeat 0%nat 24 ++ [13; 224; 182; 179; 167; 100; 0; 0])%list%nat.

Lemma C5_receive_branch_witness :
  let e := mkEvent RECEIVE NONE "cvxCRV" 1 (Some 9) (Some 1) None None in
  let ctx := mkDecoderContext (mkLog 5 [8; 1] ex_raw_one) (mkTx 1) [e] in
  nth_error (fst (fst (ex_decode ctx))) 0 =
  Some (set_notes "Claim 1 cvxCRV reward from convex"
          (set_counterparty CPT_CONVEX (set_event_subtype REWARD e))).
Proof.
  intros e ctx.
  apply (proj1 (proj2 (C5_receive_branch ex_resolve [] [7] [8] (fun _ => "1")
           ctx 8 1 [] 0 e (mkCryptoAsset "cvxCRV" 18)
           ltac:(intros t Ht; simpl in Ht |- *; destruct (Z.eqb_spec t 7);
                 [subst; reflexivity | discriminate])
           eq_refl eq_refl eq_refl eq_refl eq_refl ltac:(vm_compute; reflexivity)))).
  reflexivity.
Defined.

(** ** C6
    SPEND branch: an event at (SPEND, NONE) whose counterparty is the zero
    address gets subtype RETURN_WRAPPED (its type stays SPEND), the convex
    tag and a return note, whatever its amount; any other event at
    (SPEND, NONE) that passes the correlation test becomes a DEPOSIT with
    the convex tag and a deposit note naming the pool of the emitting
    address when the pool table lists it, plain "convex" otherwise. *)
Theorem C6_spend_branch
    (resolve : string -> AssetError + CryptoAsset) (pools : list (Z * string))
    (wtopics rtopics : list Z) (fstr : Q -> string)
    (ctx : DecoderContext) (t0 t1 : Z) (rest : list Z) (i : nat)
    (e : HistoryEvent) (ca : CryptoAsset) :
  topics (tx_log ctx) = t0 :: t1 :: rest ->
  nth_error (decoded_events ctx) i = Some e ->
  event_type e = SPEND ->
  event_subtype e = NONE ->
  resolve (asset e) = inr ca ->
  let evs' := fst (fst (_decode_convex_events resolve pools wtopics rtopics fstr ctx)) in
  let la := log_address (tx_log ctx) in
  (address e = Some ZERO_ADDRESS ->
     let ev1 := set_counterparty CPT_CONVEX (set_event_subtype RETURN_WRAPPED e) in
     nth_error evs' i = Some (set_notes (return_note pools fstr ev1 ca la) ev1)
     /\ event_type ev1 = SPEND)
  /\ (address e <> Some ZERO_ADDRESS ->
     skip_event (from_address (transaction ctx)) (hex_or_bytes_to_address t1)
       (asset_normalized_value (hex_or_bytes_to_int (slice_0_32 (data (tx_log ctx)))) ca) e
       = false ->
     let ev1 := set_counterparty CPT_CONVEX (set_event_type DEPOSIT e) in
     nth_error evs' i = Some (set_notes (deposit_note pools fstr ev1 ca la) ev1)
     /\ deposit_note pools fstr ev1 ca la =
        "Deposit " ++ fstr (balance_amount e) ++ " " ++ symbol ca ++ " into convex"
        ++ match pool_name_in la pools with
           | Some name => " " ++ name ++ " pool"
           | None => ""
           end).
Proof.
  intros Ht Hi Hty Hsub Hr evs' la.
  unfold evs'. rewrite (decode_nth resolve pools wtopics rtopics fstr ctx t0 t1 rest i e Ht Hi).
  unfold decode_event. rewrite Hr, Hty, Hsub. split.
  - intros Hz. rewrite skip_event_amount_only, Hz. simpl.
    split; [reflexivity | exact Hty].
  - intros Hz Hskip. rewrite Hskip. simpl.
    assert (Hz' : address_is_zero (address e) = false).
    { unfold address_is_zero. destruct (address e) as [a|]; [|reflexivity].
      apply Z.eqb_neq. intros ->. now apply Hz. }
    rewrite Hz'. split; reflexivity.
Qed.

(** C6 at a concrete input: a burn of wrapped tokens to the zero address
    whose amount (5) does not match the log (raw 0). *)
Lemma C6_spend_branch_witness :
  let e := mkEvent SPEND NONE "cvxCRV" 5 (Some ZERO_ADDRESS) (Some 1) None None in
  let ctx := mkDecoderContext (mkLog 5 [6; 1] []) (mkTx 1) [e] in
  nth_error (fst (fst (ex_decode ctx))) 0 =
  Some (set_notes "Return 1 cvxCRV to convex"
          (set_counterparty CPT_CONVEX (set_event_subtype RETURN_WRAPPED e))).
Proof.
  intros e ctx.
  apply (proj1 (proj1 (C6_spend_branch ex_resolve [] [7] [8] (fun _ => "1")
           ctx 6 1 [] 0 e (mkCryptoAsset "cvxCRV" 18)
           eq_refl eq_refl eq_refl eq_refl eq_refl) eq_refl)).
Defined.

(** ** C9
    Unclassifiable asset: when the asset of an event cannot be resolved
    (UnknownAsset or WrongAssetType) the rule notifies the user about that
    event, leaves it as it was, handles every other event as usual and
    returns its default output: the exception does not leave the rule. *)
Theorem C9_unresolvable_asset_skipped
    (resolve : string -> AssetError + CryptoAsset) (pools : list (Z * string))
    (wtopics rtopics : list Z) (fstr : Q -> string)
    (ctx : DecoderContext) (t0 t1 : Z) (rest : list Z) (i : nat)
    (e : HistoryEvent) (err : AssetError) :
  topics (tx_log ctx) = t0 :: t1 :: rest ->
  nth_error (decoded_events ctx) i = Some e ->
  resolve (asset e) = inl err ->
  let '(evs', ns, out) := _decode_convex_events resolve pools wtopics rtopics fstr ctx in
  out = Returned DEFAULT_DECODING_OUTPUT
  /\ nth_error evs' i = Some e
  /\ In (mkNotification e CPT_CONVEX) ns
  /\ (forall j e2, nth_error (decoded_events ctx) j = Some e2 ->
        nth_error evs' j =
        Some (fst (decode_event resolve pools wtopics rtopics fstr
                     (hex_or_bytes_to_int (slice_0_32 (data (tx_log ctx))))
                     (hex_or_bytes_to_address t1) (from_address (transaction ctx))
                     (log_address (tx_log ctx)) t0 e2))).
Proof.
  intros Ht Hi Hr.
  rewrite (decode_convex_events_unfold resolve pools wtopics rtopics fstr ctx t0 t1 rest Ht).
  repeat split.
  - rewrite nth_error_map, Hi. simpl. unfold decode_event. now rewrite Hr.
  - apply in_flat_map. exists e. split.
    + eapply nth_error_In. exact Hi.
    + unfold decode_event. rewrite Hr. now left.
  - intros j e2 Hj. now rewrite nth_error_map, Hj.
Qed.

(** C9 at a concrete input: of two deposits the first has an unknown
    asset; it is reported and kept, the second is still classified. *)
Definition ex_resolve_partial (id : string) : AssetError + CryptoAsset :=
  if String.eqb id "unknown" then inl (UnknownAsset id)
  else inr (mkCryptoAsset "cvxCRV" 18).

Lemma C9_unresolvable_asset_skipped_witness :
  let e1 := mkEvent SPEND NONE "unknown" 0 (Some 9) (Some 1) None None in
  let e2 := mkEvent SPEND NONE "cvxCRV" 0 (Some 9) (Some 1) None None in
  let ctx := mkDecoderContext (mkLog 5 [6; 1] []) (mkTx 1) [e1; e2] in
  let '(evs', ns, out) :=
    _decode_convex_events ex_resolve_partial [] [7] [8] (fun _ => "1") ctx in
  out = Returned DEFAULT_DECODING_OUTPUT
  /\ nth_error evs' 0 = Some e1
  /\ In (mkNotification e1 CPT_CONVEX) ns
  /\ nth_error evs' 1 =
     Some (set_notes "Deposit 1 cvxCRV into convex"
             (set_counterparty CPT_CONVEX (set_event_type DEPOSIT e2))).
Proof.
  intros e1 e2 ctx.
  pose proof (C9_unresolvable_asset_skipped ex_resolve_partial [] [7] [8] (fun _ => "1")
                ctx 6 1 [] 0 e1 (UnknownAsset "unknown") eq_refl eq_refl eq_refl) as H.
  destruct (_decode_convex_events _ _ _ _ _ ctx) as [[evs' ns] out].
  destruct H as (Hout & H0 & Hn & Hall).
  repeat split; try assumption.
  rewrite (Hall 1%nat e2 eq_refl). reflexivity.
Defined.

(* ================================================================== *)
(** * Properties of the enricher *)

Lemma event_type_eqb_eq (x y : HistoryEventType) :
  event_type_eqb x y = true <-> x = y.
Proof. destruct x, y; simpl; split; congruence. Qed.

Lemma event_subtype_eqb_eq (x y : HistoryEventSubType) :
  event_subtype_eqb x y = true <-> x = y.
Proof. destruct x, y; simpl; split; congruence. Qed.

Lemma z_in_In (x : Z) (xs : list Z) : z_in x xs = true <-> In x xs.
Proof.
  unfold z_in. rewrite existsb_exists. split.
  - intros (y & Hy & Heq). apply Z.eqb_eq in Heq. now subst.
  - intros H. exists x. split; [exact H | apply Z.eqb_refl].
Qed.

Lemma py_eq_label (l : option Z) (a : Z) :
  py_eq (label_obj l) (PyStr a) = true <-> l = Some a.
Proof.
  destruct l as [b|]; simpl; [|split; discriminate].
  rewrite Z.eqb_eq. split; congruence.
Qed.

(** The four match conditions of [_maybe_enrich_convex_transfers] on a log
    whose first two topics are [t0] and [t1]. *)
Definition enrich_conditions (abras : list Z) (transfer_sig : Z)
    (ctx : EnricherContext) (t0 t1 : Z) : Prop :=
  t0 = transfer_sig
  /\ In t1 abras
  /\ location_label (event ctx) = Some (from_address (etransaction ctx))
  /\ event_type (event ctx) = RECEIVE
  /\ event_subtype (event ctx) = NONE.

Lemma enrich_conditions_bool (abras : list Z) (transfer_sig : Z)
    (ctx : EnricherContext) (t0 t1 : Z) :
  (negb (negb (Z.eqb t0 transfer_sig))
   && (z_in t1 abras
       && py_eq (label_obj (location_label (event ctx)))
                (PyStr (from_address (etransaction ctx)))
       && event_type_eqb (event_type (event ctx)) RECEIVE
       && event_subtype_eqb (event_subtype (event ctx)) NONE)) = true
  <-> enrich_conditions abras transfer_sig ctx t0 t1.
Proof.
  unfold enrich_conditions. rewrite negb_involutive.
  rewrite !andb_true_iff, Z.eqb_eq, z_in_In, py_eq_label,
    event_type_eqb_eq, event_subtype_eqb_eq.
  tauto.
Qed.

(** The enricher on a log with two topics, written as one test. *)
Lemma enrich_unfold (resolve : string -> AssetError + CryptoAsset)
    (pools : list (Z * string)) (abras : list Z) (transfer_sig : Z)
    (fstr : Q -> string) (ctx : EnricherContext) (t0 t1 : Z) (rest : list Z) :
  topics (etx_log ctx) = t0 :: t1 :: rest ->
  _maybe_enrich_convex_transfers resolve pools abras transfer_sig fstr ctx =
  if negb (negb (Z.eqb t0 transfer_sig))
     && (z_in t1 abras
         && py_eq (label_obj (location_label (event ctx)))
                  (PyStr (from_address (etransaction ctx)))
         && event_type_eqb (event_type (event ctx)) RECEIVE
         && event_subtype_eqb (event_subtype (event ctx)) NONE)
  then
    match resolve (asset (event ctx)) with
    | inl err => (event ctx, Raised (AssetException err))
    | inr ca =>
        let ev1 := set_event_subtype REWARD (event ctx) in
        (set_counterparty CPT_CONVEX
           (set_notes (reward_note pools fstr ev1 ca (log_address (etx_log ctx))) ev1),
         Returned DEFAULT_ENRICHMENT_OUTPUT)
    end
  else (event ctx, Returned DEFAULT_ENRICHMENT_OUTPUT).
Proof.
  intros Ht. unfold _maybe_enrich_convex_transfers. rewrite Ht. simpl.
  destruct (Z.eqb t0 transfer_sig); simpl; reflexivity.
Qed.

(** A concrete enrichment setting: transfer signature 100, allow-list
    [200], no pool known. *)
Definition ex_enrich (resolve : string -> AssetError + CryptoAsset)
    (ctx : EnricherContext) :=
  _maybe_enrich_convex_transfers resolve [] [200] 100 (fun _ => "1") ctx.

Definition ex_unknown_receive : HistoryEvent :=
  mkEvent RECEIVE NONE "unknown" 1 (Some 9) (Some 1) None None.

Definition ex_enrich_ctx : EnricherContext :=
  mkEnricherContext (mkLog 5 [100; 200; 1] []) (mkTx 1) ex_unknown_receive.

(** ** C8, counterexample
    All four match conditions hold on [ex_enrich_ctx], but the event's
    asset is unknown: the enricher does not reclassify the event, it
    raises [UnknownAsset]. *)
Lemma C8_conditions_hold_but_not_reclassified :
  enrich_conditions [200] 100 ex_enrich_ctx 100 200
  /\ ex_enrich ex_resolve_partial ex_enrich_ctx =
     (ex_unknown_receive, Raised (AssetException (UnknownAsset "unknown")))
  /\ event_subtype (fst (ex_enrich ex_resolve_partial ex_enrich_ctx)) <> REWARD.
Proof.
  split; [|split].
  - apply enrich_conditions_bool. reflexivity.
  - reflexivity.
  - discriminate.
Qed.

(** ** C8, amended
    On a log with at least two topics (the shape of every transfer log):
    when the four match conditions hold and the event's asset resolves,
    the enricher sets subtype REWARD, the reward note and the convex tag
    and returns the no-op output; when any condition fails it leaves the
    event unchanged and returns the no-op output without raising. *)
Theorem C8_enrich_contract
    (resolve : string -> AssetError + CryptoAsset) (pools : list (Z * string))
    (abras : list Z) (transfer_sig : Z) (fstr : Q -> string)
    (ctx : EnricherContext) (t0 t1 : Z) (rest : list Z) :
  topics (etx_log ctx) = t0 :: t1 :: rest ->
  (enrich_conditions abras transfer_sig ctx t0 t1 ->
   forall ca, resolve (asset (event ctx)) = inr ca ->
   let ev1 := set_event_subtype REWARD (event ctx) in
   _maybe_enrich_convex_transfers resolve pools abras transfer_sig fstr ctx =
   (set_counterparty CPT_CONVEX
      (set_notes (reward_note pools fstr ev1 ca (log_address (etx_log ctx))) ev1),
    Returned DEFAULT_ENRICHMENT_OUTPUT))
  /\ (~ enrich_conditions abras transfer_sig ctx t0 t1 ->
      _maybe_enrich_convex_transfers resolve pools abras transfer_sig fstr ctx =
      (event ctx, Returned DEFAULT_ENRICHMENT_OUTPUT)).
Proof.
  intros Ht. rewrite (enrich_unfold resolve pools abras transfer_sig fstr ctx t0 t1 rest Ht).
  split.
  - intros Hc ca Hr. apply enrich_conditions_bool in Hc. now rewrite Hc, Hr.
  - intros Hn. rewrite <- enrich_conditions_bool in Hn.
    apply not_true_is_false in Hn. now rewrite Hn.
Qed.

(** C8 amended at a concrete input: the same context with a resolvable
    asset is reclassified. *)
Lemma C8_enrich_contract_witness :
  let e := mkEvent RECEIVE NONE "ABRA" 1 (Some 9) (Some 1) None None in
  let ctx := mkEnricherContext (mkLog 5 [100; 200; 1] []) (mkTx 1) e in
  ex_enrich ex_resolve ctx =
  (set_counterparty CPT_CONVEX
     (set_notes "Claim 1 cvxCRV reward from convex" (set_event_subtype REWARD e)),
   Returned DEFAULT_ENRICHMENT_OUTPUT).
Proof.
  intros e ctx.
  apply (proj1 (C8_enrich_contract ex_resolve [] [200] 100 (fun _ => "1") ctx 100 200 [1]
                  eq_refl)
           ltac:(apply enrich_conditions_bool; reflexivity)
           (mkCryptoAsset "cvxCRV" 18) eq_refl).
Defined.

(** ** C10
    Unlike the decoder, the enricher lets a resolution failure through:
    when the four conditions hold and the asset cannot be resolved it
    raises that [UnknownAsset] or [WrongAssetType], and the event is still
    unchanged at that point. *)
Theorem C10_enrich_propagates_asset_error
    (resolve : string -> AssetError + CryptoAsset) (pools : list (Z * string))
    (abras : list Z) (transfer_sig : Z) (fstr : Q -> string)
    (ctx : EnricherContext) (t0 t1 : Z) (rest : list Z) (err : AssetError) :
  topics (etx_log ctx) = t0 :: t1 :: rest ->
  enrich_conditions abras transfer_sig ctx t0 t1 ->
  resolve (asset (event ctx)) = inl err ->
  _maybe_enrich_convex_transfers resolve pools abras transfer_sig fstr ctx =
  (event ctx, Raised (AssetException err)).
Proof.
  intros Ht Hc Hr.
  rewrite (enrich_unfold resolve pools abras transfer_sig fstr ctx t0 t1 rest Ht).
  apply enrich_conditions_bool in Hc. now rewrite Hc, Hr.
Qed.

(** C10 at a concrete input: an asset whose resolution gives the wrong
    asset type. *)
Lemma C10_enrich_propagates_asset_error_witness :
  let e := mkEvent RECEIVE NONE "nft" 1 (Some 9) (Some 1) None None in
  let ctx := mkEnricherContext (mkLog 5 [100; 200; 1] []) (mkTx 1) e in
  ex_enrich (fun id => inl (WrongAssetType id)) ctx =
  (e, Raised (AssetException (WrongAssetType "nft"))).
Proof.
  intros e ctx.
  apply (C10_enrich_propagates_asset_error (fun id => inl (WrongAssetType id)) [] [200] 100
           (fun _ => "1") ctx 100 200 [1] (WrongAssetType "nft") eq_refl
           ltac:(apply enrich_conditions_bool; reflexivity) eq_refl).
Defined.

(* ================================================================== *)
(** * Properties of the migration manager *)

From Stdlib Require Import Sorting.Sorted.

Arguments version {World} _.
Arguments function {World} _ _.
Arguments world {World} _.
Arguments last_data_migration {World} _.
Arguments errors {World} _.
Arguments invoked {World} _.
Arguments select_migrations {World} _ _.
Arguments max_version {World} _.
Arguments run_migrations {World} _ _.
Arguments maybe_migrate_data {World} _ _ _.

Section MigrationFacts.

Variable World : Type.

Definition version_le (a b : MigrationRecord World) : Prop := (version a <= version b)%nat.

Lemma insert_by_version_hd (a r : MigrationRecord World) (l : list (MigrationRecord World)) :
  version_le a r -> HdRel version_le a l -> HdRel version_le a (insert_by_version World r l).
Proof.
  intros Har Hl. destruct l as [|x xs]; simpl.
  - now constructor.
  - destruct (Nat.leb (version r) (version x)); constructor; [exact Har|].
    now apply HdRel_inv in Hl.
Qed.

Lemma insert_by_version_sorted (r : MigrationRecord World) (l : list (MigrationRecord World)) :
  Sorted version_le l -> Sorted version_le (insert_by_version World r l).
Proof.
  induction l as [|x xs IH]; intros Hs; simpl.
  - repeat constructor.
  - apply Sorted_inv in Hs as [Hxs Hhd].
    destruct (Nat.leb (version r) (version x)) eqn:Hle.
    + constructor; [now constructor|]. constructor. now apply Nat.leb_le.
    + constructor; [now apply IH|]. apply insert_by_version_hd; [|exact Hhd].
      apply Nat.leb_gt in Hle. unfold version_le. lia.
Qed.

Lemma sort_by_version_sorted (l : list (MigrationRecord World)) :
  Sorted version_le (sort_by_version World l).
Proof.
  induction l as [|x xs IH]; simpl; [constructor|].
  now apply insert_by_version_sorted.
Qed.

(** In an ascending list the last version is the highest one. *)
Lemma sorted_last_is_max (l : list (MigrationRecord World)) (d : MigrationRecord World) :
  Sorted version_le l -> l <> [] ->
  version (last l d) = fold_right Nat.max 0%nat (map version l).
Proof.
  induction l as [|x xs IH]; intros Hs Hne; [congruence|].
  apply Sorted_inv in Hs as [Hxs Hhd].
  destruct xs as [|y ys]; [simpl; lia|].
  change (last (x :: y :: ys) d) with (last (y :: ys) d).
  rewrite IH by (auto; discriminate).
  apply HdRel_inv in Hhd. unfold version_le in Hhd.
  simpl. simpl in IH. lia.
Qed.

(** A run without failure completes every migration it is given and leaves
    the marker at the last one. *)
Lemma run_migrations_ok (todo : list (MigrationRecord World)) (s s' : MigState World)
    (completed : list nat) (d : MigrationRecord World) :
  run_migrations todo s = (s', completed, None) ->
  completed = map version todo
  /\ (todo <> [] -> last_data_migration s' = Some (version (last todo d))).
Proof.
  revert s completed. induction todo as [|r rest IH]; intros s completed Hrun; simpl in Hrun.
  - injection Hrun as <- <-. split; [reflexivity | congruence].
  - destruct (function r (world s)) as [w'|message]; [|discriminate].
    destruct (run_migrations rest _) as [[s3 done] failure] eqn:Hrest.
    injection Hrun as <- <- ->.
    destruct (IH _ _ Hrest) as [Hdone Hlast].
    split; [now rewrite Hdone|]. intros _.
    destruct rest as [|r2 rest2].
    + simpl in Hrest. injection Hrest as <- _. reflexivity.
    + apply Hlast. discriminate.
Qed.

(** A run that fails stops at the failing migration: the ones before it
    completed, it recorded one error, nothing after it was invoked, and the
    marker is the last completed version (or unchanged). *)
Lemma run_migrations_fail (todo : list (MigrationRecord World)) (s s' : MigState World)
    (completed : list nat) (v : nat) (message : string) :
  run_migrations todo s = (s', completed, Some (v, message)) ->
  exists pre r post,
    todo = app pre (r :: post)
    /\ version r = v
    /\ completed = map version pre
    /\ errors s' = app (errors s) [failed_migration_msg v message]
    /\ invoked s' = app (invoked s) (app (map version pre) [v])
    /\ last_data_migration s' =
       match rev completed with
       | [] => last_data_migration s
       | x :: _ => Some x
       end.
Proof.
  revert s completed. induction todo as [|r rest IH]; intros s completed Hrun; simpl in Hrun.
  - discriminate.
  - destruct (function r (world s)) as [w'|msg'] eqn:Hf.
    + destruct (run_migrations rest _) as [[s3 done] failure] eqn:Hrest.
      injection Hrun as <- <- ->.
      destruct (IH _ _ Hrest) as (pre & r' & post & Hto & Hv & Hdone & Herr & Hinv & Hmark).
      exists (r :: pre), r', post. simpl in *.
      repeat split.
      * now rewrite Hto.
      * exact Hv.
      * now rewrite Hdone.
      * exact Herr.
      * rewrite Hinv. now rewrite <- app_assoc.
      * rewrite Hmark, Hdone. simpl.
        destruct (rev (map version pre)) eqn:Hr; simpl; reflexivity.
    + injection Hrun as <- <- <- <-.
      exists [], r, rest. simpl. repeat split; reflexivity.
Qed.

(** The highest version among the migrations above [m], when there is
    one, is the highest registered version. *)
Lemma max_version_insert (r : MigrationRecord World) l :
  max_version (insert_by_version World r l) = Nat.max (version r) (max_version l).
Proof.
  induction l as [|x xs IH]; simpl; [reflexivity|].
  destruct (Nat.leb (version r) (version x)); simpl; [reflexivity|].
  rewrite IH. lia.
Qed.

Lemma max_version_sort l :
  max_version (sort_by_version World l) = max_version l.
Proof.
  induction l as [|x xs IH]; simpl; [reflexivity|].
  rewrite max_version_insert, IH. reflexivity.
Qed.

Lemma max_version_filter_empty (m : nat) (l : list (MigrationRecord World)) :
  filter (fun r => Nat.ltb m (version r)) l = [] -> (max_version l <= m)%nat.
Proof.
  induction l as [|x xs IH]; simpl; [lia|].
  destruct (Nat.ltb_spec m (version x)); [discriminate|]. intros Hf. specialize (IH Hf). lia.
Qed.

Lemma max_version_filter (m : nat) (l : list (MigrationRecord World)) :
  filter (fun r => Nat.ltb m (version r)) l <> [] ->
  max_version (filter (fun r => Nat.ltb m (version r)) l) = max_version l
  /\ (m < max_version l)%nat.
Proof.
  induction l as [|x xs IH]; simpl; [congruence|].
  destruct (Nat.ltb_spec m (version x)) as [Hlt|Hge]; simpl.
  - intros _. destruct (filter (fun r => Nat.ltb m (version r)) xs) eqn:Hf.
    + pose proof (max_version_filter_empty m xs Hf). simpl. split; lia.
    + destruct IH as [IH1 IH2]; [discriminate|]. simpl in *. split; lia.
  - intros Hne. destruct (IH Hne) as [IH1 IH2]. split; lia.
Qed.

Lemma max_version_map (l : list (MigrationRecord World)) :
  fold_right Nat.max 0%nat (map version l) = max_version l.
Proof. induction l as [|x xs IH]; simpl; [reflexivity|]. now rewrite IH. Qed.

End MigrationFacts.

(** A concrete world for the migration examples: a counter every
    migration bumps, and migrations that succeed or raise. *)
Definition ok_migration (v : nat) : MigrationRecord nat :=
  mkMigrationRecord nat v (fun w => inl (S w)).

Definition raising_migration (v : nat) (message : string) : MigrationRecord nat :=
  mkMigrationRecord nat v (fun _ => inr message).

(** ** C3, counterexample
    At the input of [test_migration_1] (marker 0, nine registered
    migrations, [MIGRATION_LIST] patched to migration 1 alone) every
    selected migration completes, yet the marker ends at
    [LAST_DATA_MIGRATION] = 9, not at 1, the highest completed version. *)
Lemma C3_patched_list_counterexample :
  let s := mkMigState nat 0%nat (Some 0%nat) [] [] in
  let registered := map ok_migration (seq 1 9) in
  let res := maybe_migrate_data registered [ok_migration 1] s in
  snd (fst res) = [1%nat] /\ snd res = None
  /\ last_data_migration (fst (fst res)) = Some 9%nat
  /\ last_data_migration (fst (fst res)) <> Some (fold_right Nat.max 0%nat (snd (fst res))).
Proof. vm_compute. repeat split; try reflexivity. discriminate. Qed.

(** ** C3 (corrected)
    After a call of [maybe_migrate_data] in which every selected migration
    completes (and at least one was selected), the completed migrations are
    exactly the selected ones and the persisted marker is
    [LAST_DATA_MIGRATION], the highest registered version.  When the manager
    selects from the registered list itself, this is the highest version
    among the migrations that completed. *)
Theorem C3_marker_after_successful_run (World : Type)
    (registered MIGRATION_LIST : list (MigrationRecord World))
    (s s' : MigState World) (completed : list nat) :
  maybe_migrate_data registered MIGRATION_LIST s = (s', completed, None) ->
  completed <> [] ->
  completed = map version (select_migrations (last_data_migration s) MIGRATION_LIST)
  /\ last_data_migration s' = Some (max_version registered)
  /\ (MIGRATION_LIST = registered ->
      last_data_migration s' = Some (fold_right Nat.max 0%nat completed)).
Proof.
  intros Hrun Hne. unfold maybe_migrate_data in Hrun.
  destruct (select_migrations (last_data_migration s) MIGRATION_LIST) as [|r rest] eqn:Hsel.
  - destruct (last_data_migration s); injection Hrun as _ <-; congruence.
  - destruct (run_migrations (r :: rest) s) as [[s1 done] failure] eqn:Hr.
    destruct failure as [f|]; [discriminate|].
    injection Hrun as <- <-.
    destruct (run_migrations_ok World (r :: rest) s s1 done r Hr) as [Hdone _].
    split; [exact Hdone|]. split; [reflexivity|].
    intros ->. simpl. f_equal. rewrite Hdone, max_version_map, <- Hsel.
    unfold select_migrations in *. rewrite max_version_sort.
    symmetry. apply max_version_filter. intros Hf. rewrite Hf in Hsel. discriminate.
Qed.

(** C3 at the input of [test_migration_1]: the marker ends at
    [LAST_DATA_MIGRATION] = 9. *)
Lemma C3_marker_after_successful_run_witness :
  let s := mkMigState nat 0%nat (Some 0%nat) [] [] in
  let registered := map ok_migration (seq 1 9) in
  let res := maybe_migrate_data registered [ok_migration 1] s in
  last_data_migration (fst (fst res)) = Some 9%nat.
Proof.
  intros s registered res.
  exact (proj1 (proj2 (C3_marker_after_successful_run nat registered [ok_migration 1] s
                  (fst (fst res)) (snd (fst res)) eq_refl ltac:(discriminate)))).
Defined.

(** ** C4
    Failure isolation: when a selected migration raises, exactly one error
    [Failed to run soft data migration to version {v} due to {message}] is
    recorded, no later selected migration is invoked, and the marker is the
    last version completed in this call, or its prior value if none. *)
Theorem C4_failure_isolation (World : Type)
    (registered MIGRATION_LIST : list (MigrationRecord World))
    (s s' : MigState World) (completed : list nat) (v : nat) (message : string) :
  maybe_migrate_data registered MIGRATION_LIST s = (s', completed, Some (v, message)) ->
  exists pre r post,
    select_migrations (last_data_migration s) MIGRATION_LIST = app pre (r :: post)
    /\ version r = v
    /\ completed = map version pre
    /\ errors s' = app (errors s) [failed_migration_msg v message]
    /\ invoked s' = app (invoked s) (app (map version pre) [v])
    /\ last_data_migration s' =
       match rev completed with
       | [] => last_data_migration s
       | x :: _ => Some x
       end.
Proof.
  intros Hrun. unfold maybe_migrate_data in Hrun.
  destruct (select_migrations (last_data_migration s) MIGRATION_LIST) as [|r rest] eqn:Hsel.
  - destruct (last_data_migration s); discriminate.
  - destruct (run_migrations (r :: rest) s) as [[s1 done] failure] eqn:Hr.
    destruct failure as [f|]; [|discriminate].
    injection Hrun as <- <- ->.
    exact (run_migrations_fail World (r :: rest) s s1 done v message Hr).
Qed.

(** C4 at the spec's input: [v1 succeeds, v2 raises "ngmi", v3 succeeds]
    from marker 0 ends at marker 1 with one error and v3 never invoked. *)
Lemma C4_failure_isolation_witness :
  let s := mkMigState nat 0%nat (Some 0%nat) [] [] in
  let l := [ok_migration 1; raising_migration 2 "ngmi"; ok_migration 3] in
  let res := maybe_migrate_data l l s in
  errors (fst (fst res)) = ["Failed to run soft data migration to version 2 due to ngmi"]
  /\ invoked (fst (fst res)) = [1; 2]%nat
  /\ last_data_migration (fst (fst res)) = Some 1%nat.
Proof.
  intros s l res.
  destruct (C4_failure_isolation nat l l s (fst (fst res)) (snd (fst res)) 2 "ngmi" eq_refl)
    as (pre & r & post & Hsel & Hv & Hdone & Herr & Hinv & Hmark).
  rewrite Herr, Hinv, Hmark, Hdone.
  assert (Hpre : pre = [ok_migration 1]).
  { vm_compute in Hsel.
    destruct pre as [|p1 [|p2 [|p3 pre']]]; simpl in Hsel; inversion Hsel; subst;
      simpl in Hv; try discriminate; reflexivity. }
  rewrite Hpre. repeat split; reflexivity.
Defined.

(** ** C7
    Fresh database: when the marker is absent and nothing is selected, the
    marker is set to the highest version among the registered migrations
    and no migration function is invoked. *)
Theorem C7_fresh_db_starts_migrated (World : Type)
    (registered MIGRATION_LIST : list (MigrationRecord World))
    (s s' : MigState World) (completed : list nat) (failure : option (nat * string)) :
  last_data_migration s = None ->
  select_migrations None MIGRATION_LIST = [] ->
  maybe_migrate_data registered MIGRATION_LIST s = (s', completed, failure) ->
  last_data_migration s' = Some (max_version registered)
  /\ invoked s' = invoked s
  /\ world s' = world s
  /\ completed = []
  /\ failure = None.
Proof.
  intros Hnone Hsel Hrun. unfold maybe_migrate_data in Hrun.
  rewrite Hnone, Hsel in Hrun. injection Hrun as <- <- <-.
  repeat split; reflexivity.
Qed.

(** C7 at the test's input: migrations 1..5 registered, the patched list
    empty, no marker: the marker becomes 5 and nothing runs. *)
Lemma C7_fresh_db_starts_migrated_witness :
  let registered := map ok_migration [1; 2; 3; 4; 5]%nat in
  let s := mkMigState nat 0%nat None [] [] in
  let res := maybe_migrate_data registered [] s in
  last_data_migration (fst (fst res)) = Some 5%nat /\ invoked (fst (fst res)) = [].
Proof.
  intros registered s res.
  destruct (C7_fresh_db_starts_migrated nat registered [] s (fst (fst res)) (snd (fst res))
              (snd res) eq_refl eq_refl eq_refl) as (Hm & Hi & _).
  split; [exact Hm | exact Hi].
Defined.

(* ================================================================== *)
(** * Further properties of the decoder *)

(** Case split over every test of one decoder iteration. *)
Ltac decode_cases :=
  unfold decode_event;
  repeat match goal with
  | |- context [match ?r with inl _ => _ | inr _ => _ end] =>
      let H := fresh "Hr" in destruct r eqn:H
  | |- context [if ?b then _ else _] =>
      let H := fresh "Hb" in destruct b eqn:H
  end.

Section DecoderMore.

Variable resolve : string -> AssetError + CryptoAsset.
Variable pools : list (Z * string).
Variables wtopics rtopics : list Z.
Variable fstr : Q -> string.

Let step := decode_event resolve pools wtopics rtopics fstr.

(** One iteration writes only the type, subtype, notes and counterparty. *)
Lemma decode_event_keeps_fields (raw ia from la t0 : Z) (e : HistoryEvent) :
  let e' := fst (step raw ia from la t0 e) in
  asset e' = asset e /\ balance_amount e' = balance_amount e
  /\ address e' = address e /\ location_label e' = location_label e.
Proof. unfold step. decode_cases; simpl; auto. Qed.

(** One iteration leaves an event alone unless it is at (SPEND, NONE) or
    (RECEIVE, NONE). *)
Lemma decode_event_classified_untouched (raw ia from la t0 : Z) (e : HistoryEvent) :
  ~ ((event_type e = SPEND \/ event_type e = RECEIVE) /\ event_subtype e = NONE) ->
  fst (step raw ia from la t0 e) = e.
Proof.
  intros Hn. unfold step. decode_cases; simpl; auto; exfalso; apply Hn;
    repeat match goal with
    | H : (_ && _)%bool = true |- _ => apply andb_true_iff in H as [? ?]
    | H : event_type_eqb _ _ = true |- _ => apply event_type_eqb_eq in H
    | H : event_subtype_eqb _ _ = true |- _ => apply event_subtype_eqb_eq in H
    end; tauto.
Qed.

(** A second iteration on the same log changes nothing more. *)
Lemma decode_event_idem (raw ia from la t0 : Z) (e : HistoryEvent) :
  fst (step raw ia from la t0 (fst (step raw ia from la t0 e))) =
  fst (step raw ia from la t0 e).
Proof.
  assert (fst (step raw ia from la t0 e) = e \/
            ~ ((event_type (fst (step raw ia from la t0 e)) = SPEND \/
                event_type (fst (step raw ia from la t0 e)) = RECEIVE) /\
               event_subtype (fst (step raw ia from la t0 e)) = NONE)) as [He|Hn]
    by (unfold step; decode_cases; simpl; auto; right; intros [[H|H] H']; discriminate).
  - rewrite He. exact He.
  - now apply decode_event_classified_untouched.
Qed.

(** The notifications of one iteration: one for an unresolvable asset. *)
Lemma decode_event_notifications (raw ia from la t0 : Z) (e : HistoryEvent) :
  snd (step raw ia from la t0 e) =
  match resolve (asset e) with
  | inl _ => [mkNotification e CPT_CONVEX]
  | inr _ => []
  end.
Proof. unfold step. decode_cases; reflexivity. Qed.

(** A changed event carries the convex tag and a note. *)
Lemma decode_event_changed_tagged (raw ia from la t0 : Z) (e : HistoryEvent) :
  fst (step raw ia from la t0 e) <> e ->
  counterparty (fst (step raw ia from la t0 e)) = Some CPT_CONVEX
  /\ exists n, notes (fst (step raw ia from la t0 e)) = Some n.
Proof.
  intros Hne. revert Hne. unfold step. decode_cases; simpl; intros Hne;
    try (exfalso; now apply Hne); split; eauto.
Qed.

End DecoderMore.

(** The same call on other events, or on a log with other data bytes. *)
Definition with_events (ctx : DecoderContext) (evs : list HistoryEvent) : DecoderContext :=
  mkDecoderContext (tx_log ctx) (transaction ctx) evs.

Definition with_data (ctx : DecoderContext) (d : list Byte.byte) : DecoderContext :=
  mkDecoderContext (mkLog (log_address (tx_log ctx)) (topics (tx_log ctx)) d)
    (transaction ctx) (decoded_events ctx).

(** Whatever the log, the events after the call are the per-event results
    (or the events themselves when the log has fewer than two topics). *)
Lemma decode_events_shape (resolve : string -> AssetError + CryptoAsset)
    (pools : list (Z * string)) (wtopics rtopics : list Z) (fstr : Q -> string)
    (ctx : DecoderContext) :
  (exists g, fst (fst (_decode_convex_events resolve pools wtopics rtopics fstr ctx)) =
             map g (decoded_events ctx)
          /\ (forall e, g e = e \/
              exists raw ia from la t0,
                g e = fst (decode_event resolve pools wtopics rtopics fstr raw ia from la t0 e))).
Proof.
  destruct (topics (tx_log ctx)) as [|t0 [|t1 rest]] eqn:Ht.
  1-2: exists (fun e => e); rewrite decode_convex_events_short by (rewrite Ht; simpl; lia);
       split; [symmetry; apply map_id | auto].
  rewrite (decode_convex_events_unfold resolve pools wtopics rtopics fstr ctx t0 t1 rest Ht).
  eexists. split; [reflexivity|]. intros e. right. do 5 eexists. reflexivity.
Qed.

Section DecoderExtras.

Variable resolve : string -> AssetError + CryptoAsset.
Variable pools : list (Z * string).
Variables wtopics rtopics : list Z.
Variable fstr : Q -> string.

Let decode := _decode_convex_events resolve pools wtopics rtopics fstr.

(** ** X1: the rule never creates or deletes events. *)
Theorem decoder_keeps_event_count (ctx : DecoderContext) :
  length (fst (fst (decode ctx))) = length (decoded_events ctx).
Proof.
  unfold decode. destruct (decode_events_shape resolve pools wtopics rtopics fstr ctx)
    as (g & Hg & _).
  rewrite Hg. apply length_map.
Qed.

(** ** X2: the rule never changes an event's asset, amount, counterparty
    address or location label. *)
Theorem decoder_keeps_event_identity (ctx : DecoderContext) (i : nat) (e e' : HistoryEvent) :
  nth_error (decoded_events ctx) i = Some e ->
  nth_error (fst (fst (decode ctx))) i = Some e' ->
  asset e' = asset e /\ balance_amount e' = balance_amount e
  /\ address e' = address e /\ location_label e' = location_label e.
Proof.
  intros Hi Hi'. unfold decode in Hi'.
  destruct (decode_events_shape resolve pools wtopics rtopics fstr ctx) as (g & Hg & Hgs).
  rewrite Hg, nth_error_map, Hi in Hi'. injection Hi' as <-.
  destruct (Hgs e) as [-> | (raw & ia & from & la & t0 & ->)]; [auto|].
  apply decode_event_keeps_fields.
Qed.

(** ** X3: single classification: an event not at (SPEND, NONE) or
    (RECEIVE, NONE) comes out of the rule unchanged. *)
Theorem decoder_single_classification (ctx : DecoderContext) (i : nat) (e : HistoryEvent) :
  nth_error (decoded_events ctx) i = Some e ->
  ~ ((event_type e = SPEND \/ event_type e = RECEIVE) /\ event_subtype e = NONE) ->
  nth_error (fst (fst (decode ctx))) i = Some e.
Proof.
  intros Hi Hn. unfold decode.
  destruct (decode_events_shape resolve pools wtopics rtopics fstr ctx) as (g & Hg & Hgs).
  rewrite Hg, nth_error_map, Hi. simpl. f_equal.
  destruct (Hgs e) as [Heq | (raw & ia & from & la & t0 & Heq)]; rewrite Heq;
    [reflexivity|].
  now apply decode_event_classified_untouched.
Qed.

(** ** X4: decoding the same log a second time changes no event. *)
Theorem decoder_idempotent (ctx : DecoderContext) :
  fst (fst (decode (with_events ctx (fst (fst (decode ctx)))))) = fst (fst (decode ctx)).
Proof.
  unfold decode, with_events.
  destruct (topics (tx_log ctx)) as [|t0 [|t1 rest]] eqn:Ht.
  1-2: rewrite (decode_convex_events_short _ _ _ _ _ ctx) by (rewrite Ht; simpl; lia);
       simpl; rewrite decode_convex_events_short by (simpl; rewrite Ht; simpl; lia);
       reflexivity.
  rewrite (decode_convex_events_unfold resolve pools wtopics rtopics fstr ctx t0 t1 rest Ht).
  rewrite (decode_convex_events_unfold resolve pools wtopics rtopics fstr
             (mkDecoderContext (tx_log ctx) (transaction ctx) _) t0 t1 rest Ht).
  simpl. rewrite map_map. apply map_ext. intros e. apply decode_event_idem.
Qed.

(** ** X5: on a log with fewer than two topics the rule raises IndexError
    before looking at any event: nothing is changed or notified. *)
Theorem decoder_short_log_raises (ctx : DecoderContext) :
  (length (topics (tx_log ctx)) < 2)%nat ->
  decode ctx = (decoded_events ctx, [], Raised IndexError).
Proof.
  intros Hl. unfold decode. now apply decode_convex_events_short.
Qed.

(** ** X6: on a log with two topics the notifications are exactly one per
    event whose asset cannot be resolved, in the order of the events. *)
Theorem decoder_notifications_exact (ctx : DecoderContext) (t0 t1 : Z) (rest : list Z) :
  topics (tx_log ctx) = t0 :: t1 :: rest ->
  snd (fst (decode ctx)) =
  map (fun e => mkNotification e CPT_CONVEX)
    (filter (fun e => match resolve (asset e) with inl _ => true | inr _ => false end)
       (decoded_events ctx)).
Proof.
  intros Ht. unfold decode.
  rewrite (decode_convex_events_unfold resolve pools wtopics rtopics fstr ctx t0 t1 rest Ht).
  simpl. induction (decoded_events ctx) as [|e evs IH]; [reflexivity|].
  simpl. rewrite decode_event_notifications.
  destruct (resolve (asset e)); simpl; [f_equal|]; exact IH.
Qed.

(** ** X7: every event the rule changes carries the convex tag and a note. *)
Theorem decoder_changed_events_tagged (ctx : DecoderContext) (i : nat) (e e' : HistoryEvent) :
  nth_error (decoded_events ctx) i = Some e ->
  nth_error (fst (fst (decode ctx))) i = Some e' ->
  e' <> e ->
  counterparty e' = Some CPT_CONVEX /\ exists n, notes e' = Some n.
Proof.
  intros Hi Hi' Hne. unfold decode in Hi'.
  destruct (decode_events_shape resolve pools wtopics rtopics fstr ctx) as (g & Hg & Hgs).
  rewrite Hg, nth_error_map, Hi in Hi'. injection Hi' as <-.
  destruct (Hgs e) as [Heq | (raw & ia & from & la & t0 & Heq)].
  - exfalso. exact (Hne Heq).
  - rewrite Heq in Hne |- *. now apply decode_event_changed_tagged.
Qed.

(** ** X8: only the first 32-byte data word is read: bytes after it do not
    change the result. *)
Theorem decoder_reads_first_data_word (ctx : DecoderContext) (extra : list Byte.byte) :
  (32 <= length (data (tx_log ctx)))%nat ->
  decode (with_data ctx (app (data (tx_log ctx)) extra)) = decode ctx.
Proof.
  intros Hl. unfold decode, _decode_convex_events, with_data. simpl.
  unfold slice_0_32. rewrite firstn_app.
  replace (32 - length (data (tx_log ctx)))%nat with 0%nat by lia.
  rewrite firstn_O, app_nil_r. reflexivity.
Qed.

End DecoderExtras.

(* ================================================================== *)
(** * Further properties of the enricher *)

Definition with_event (ctx : EnricherContext) (e : HistoryEvent) : EnricherContext :=
  mkEnricherContext (etx_log ctx) (etransaction ctx) e.

Section EnricherExtras.

Variable resolve : string -> AssetError + CryptoAsset.
Variable pools : list (Z * string).
Variable abras : list Z.
Variable transfer_sig : Z.
Variable fstr : Q -> string.

Let enrich := _maybe_enrich_convex_transfers resolve pools abras transfer_sig fstr.

Ltac enrich_cases :=
  unfold enrich, _maybe_enrich_convex_transfers;
  repeat match goal with
  | |- context [match ?r with inl _ => _ | inr _ => _ end] =>
      let H := fresh "Hr" in destruct r eqn:H
  | |- context [match ?o with Some _ => _ | None => _ end] =>
      let H := fresh "Ho" in destruct o eqn:H
  | |- context [if ?b then _ else _] =>
      let H := fresh "Hb" in destruct b eqn:H
  end.

(** ** X9: the enricher never changes an event's type, asset, amount,
    counterparty address or location label, whether it returns or raises. *)
Theorem enricher_keeps_event_identity (ctx : EnricherContext) :
  let e' := fst (enrich ctx) in
  event_type e' = event_type (event ctx) /\ asset e' = asset (event ctx)
  /\ balance_amount e' = balance_amount (event ctx)
  /\ address e' = address (event ctx) /\ location_label e' = location_label (event ctx).
Proof. enrich_cases; simpl; auto 10. Qed.

(** ** X10: running the enricher again on the event it produced changes
    nothing and does not raise. *)
Theorem enricher_idempotent (ctx : EnricherContext) (e' : HistoryEvent)
    (out : TransferEnrichmentOutput) :
  enrich ctx = (e', Returned out) ->
  enrich (with_event ctx e') = (e', Returned DEFAULT_ENRICHMENT_OUTPUT).
Proof.
  unfold with_event, enrich, _maybe_enrich_convex_transfers; cbn [event etx_log etransaction].
  destruct (nth_error (topics (etx_log ctx)) 0) as [t0|] eqn:H0; [|discriminate].
  destruct (negb (Z.eqb t0 transfer_sig)) eqn:Hs; [intros H; inversion H; subst; reflexivity|].
  destruct (nth_error (topics (etx_log ctx)) 1) as [t1|] eqn:H1; [|discriminate].
  destruct (z_in t1 abras && py_eq (label_obj (location_label (event ctx)))
              (PyStr (from_address (etransaction ctx)))
            && event_type_eqb (event_type (event ctx)) RECEIVE
            && event_subtype_eqb (event_subtype (event ctx)) NONE) eqn:Hc.
  - destruct (resolve (asset (event ctx))) as [err|ca]; [discriminate|].
    intros H; inversion H; subst. simpl. rewrite andb_false_r. reflexivity.
  - intros H; inversion H; subst. rewrite Hc. reflexivity.
Qed.

(** ** X11: a log whose first topic is not the transfer signature leaves
    the event unchanged and does not raise, even when it has no second
    topic ([topics[1]] is never read). *)
Theorem enricher_other_signature_noop (ctx : EnricherContext) (t0 : Z) (rest : list Z) :
  topics (etx_log ctx) = t0 :: rest ->
  t0 <> transfer_sig ->
  enrich ctx = (event ctx, Returned DEFAULT_ENRICHMENT_OUTPUT).
Proof.
  intros Ht Hne. unfold enrich, _maybe_enrich_convex_transfers. rewrite Ht. simpl.
  apply Z.eqb_neq in Hne. now rewrite Hne.
Qed.

(** ** X12: a log without topics makes the enricher raise IndexError,
    leaving the event unchanged. *)
Theorem enricher_no_topics_raises (ctx : EnricherContext) :
  topics (etx_log ctx) = [] ->
  enrich ctx = (event ctx, Raised IndexError).
Proof.
  intros Ht. unfold enrich, _maybe_enrich_convex_transfers. now rewrite Ht.
Qed.

End EnricherExtras.

(* ================================================================== *)
(** * The decoder registry ([addresses_to_decoders]) *)

(** The rule references the registry stores ([self._decode_convex_events]
    and [self._maybe_enrich_convex_transfers]). *)
Inductive DecoderRule : Type :=
| decode_convex_events_rule
| maybe_enrich_convex_transfers_rule.

(** A Python dict as an insertion-ordered association list: assigning an
    existing key replaces its value in place, a new key is appended. *)
Fixpoint dict_setitem {A : Type} (d : list (Z * A)) (k : Z) (v : A) : list (Z * A) :=
  match d with
  | [] => [(k, v)]
  | (k', v') :: rest =>
      if Z.eqb k' k then (k', v) :: rest else (k', v') :: dict_setitem rest k v
  end.

Fixpoint dict_get {A : Type} (d : list (Z * A)) (k : Z) : option A :=
  match d with
  | [] => None
  | (k', v) :: rest => if Z.eqb k' k then Some v else dict_get rest k
  end.

(** [d.update(other)]: assign every pair of [other] in its order. *)
Definition dict_update {A : Type} (d other : list (Z * A)) : list (Z * A) :=
  fold_left (fun acc kv => dict_setitem acc (fst kv) (snd kv)) other d.

(** A dict literal or comprehension: assignments into an empty dict. *)
Definition dict_of_list {A : Type} (kvs : list (Z * A)) : list (Z * A) :=
  dict_update [] kvs.

Section Registry.

Variables BOOSTER CVX_LOCKER CVX_LOCKER_V2 CVX_REWARDS CVXCRV_REWARDS : Z.
Variable CONVEX_POOLS : list (Z * string).
Variable CONVEX_VIRTUAL_REWARDS : list Z.

(** [ConvexDecoder.addresses_to_decoders]. *)
Definition addresses_to_decoders : list (Z * list DecoderRule) :=
  let decoder_mappings :=
    dict_of_list [(BOOSTER, [decode_convex_events_rule]);
                  (CVX_LOCKER, [decode_convex_events_rule]);
                  (CVX_LOCKER_V2, [decode_convex_events_rule]);
                  (CVX_REWARDS, [decode_convex_events_rule]);
                  (CVXCRV_REWARDS, [decode_convex_events_rule])] in
  let pools := dict_of_list (map (fun pool => (fst pool, [decode_convex_events_rule]))
                                 CONVEX_POOLS) in
  let virtual_rewards := dict_of_list (map (fun addr => (addr, [decode_convex_events_rule]))
                                           CONVEX_VIRTUAL_REWARDS) in
  dict_update (dict_update decoder_mappings pools) virtual_rewards.

(** [ConvexDecoder.counterparties] and [ConvexDecoder.enricher_rules]. *)
Definition counterparties : list string := [CPT_CONVEX].
Definition enricher_rules : list DecoderRule := [maybe_enrich_convex_transfers_rule].

End Registry.

Lemma dict_get_setitem {A : Type} (d : list (Z * A)) (k k' : Z) (v : A) :
  dict_get (dict_setitem d k v) k' = if Z.eqb k k' then Some v else dict_get d k'.
Proof.
  induction d as [|[k0 v0] rest IH]; simpl.
  - destruct (Z.eqb k k'); reflexivity.
  - destruct (Z.eqb_spec k0 k) as [->|Hne]; simpl.
    + destruct (Z.eqb k k'); reflexivity.
    + rewrite IH. destruct (Z.eqb_spec k0 k'), (Z.eqb_spec k k'); subst; congruence.
Qed.

(** A dict all of whose values are [v]: a key maps to [v] exactly when it
    was assigned by the update or was already there. *)
Lemma dict_get_update_const {A : Type} (d : list (Z * A)) (ks : list Z) (v : A) (k : Z) :
  dict_get (dict_update d (map (fun x => (x, v)) ks)) k =
  if existsb (Z.eqb k) ks then Some v else dict_get d k.
Proof.
  unfold dict_update. revert d. induction ks as [|x xs IH]; intros d; simpl; [reflexivity|].
  rewrite IH, dict_get_setitem. rewrite (Z.eqb_sym x k).
  destruct (Z.eqb k x), (existsb (Z.eqb k) xs); reflexivity.
Qed.

Lemma dict_setitem_keys {A : Type} (d : list (Z * A)) (k x : Z) (v : A) :
  In x (map fst (dict_setitem d k v)) <-> x = k \/ In x (map fst d).
Proof.
  induction d as [|[k0 v0] rest IH]; simpl; [intuition (subst; auto)|].
  destruct (Z.eqb_spec k0 k) as [->|Hne]; simpl; rewrite ?IH; intuition (subst; auto).
Qed.

Lemma dict_setitem_nodup {A : Type} (d : list (Z * A)) (k : Z) (v : A) :
  NoDup (map fst d) -> NoDup (map fst (dict_setitem d k v)).
Proof.
  induction d as [|[k0 v0] rest IH]; simpl; intros Hd.
  - constructor; [intros []|constructor].
  - inversion Hd as [|? ? Hn Hr]; subst.
    destruct (Z.eqb_spec k0 k) as [->|Hne]; simpl; constructor; auto.
    rewrite dict_setitem_keys. intros [->|Hin]; [congruence|tauto].
Qed.

Lemma dict_update_nodup {A : Type} (d kvs : list (Z * A)) :
  NoDup (map fst d) -> NoDup (map fst (dict_update d kvs)).
Proof.
  revert d. induction kvs as [|[k1 v1] rest IH]; intros d Hd; [exact Hd|].
  apply IH, dict_setitem_nodup, Hd.
Qed.

Lemma dict_get_not_in {A : Type} (d : list (Z * A)) (k : Z) :
  ~ In k (map fst d) -> dict_get d k = None.
Proof.
  induction d as [|[k0 v0] rest IH]; simpl; intros Hn; [reflexivity|].
  destruct (Z.eqb_spec k0 k); [tauto|]. apply IH. tauto.
Qed.

(** Updating with a dict (whose keys are distinct): the update's own value
    wins, other keys keep their old value. *)
Lemma dict_get_update {A : Type} (d other : list (Z * A)) (k : Z) :
  NoDup (map fst other) ->
  dict_get (dict_update d other) k =
  match dict_get other k with Some v => Some v | None => dict_get d k end.
Proof.
  revert d. induction other as [|[k1 v1] rest IH]; intros d Hnd; [reflexivity|].
  inversion Hnd as [|? ? Hn Hr]; subst.
  change (dict_update d ((k1, v1) :: rest)) with (dict_update (dict_setitem d k1 v1) rest).
  rewrite (IH _ Hr), dict_get_setitem. simpl.
  destruct (Z.eqb_spec k1 k) as [->|Hne].
  - now rewrite (dict_get_not_in rest k Hn).
  - destruct (dict_get rest k); reflexivity.
Qed.

Lemma dict_of_list_nodup {A : Type} (kvs : list (Z * A)) :
  NoDup (map fst (dict_of_list kvs)).
Proof. apply dict_update_nodup. constructor. Qed.

Lemma dict_get_of_list_const {A : Type} (ks : list Z) (v : A) (k : Z) :
  dict_get (dict_of_list (map (fun x => (x, v)) ks)) k =
  if existsb (Z.eqb k) ks then Some v else None.
Proof. unfold dict_of_list. rewrite dict_get_update_const. reflexivity. Qed.

(** ** X13: the registry maps an address to the one-rule tuple
    [(_decode_convex_events,)] exactly when it is one of the five Convex
    contracts, a pool address or a virtual-rewards address, and has no
    entry for any other address. *)
Theorem addresses_to_decoders_lookup
    (BOOSTER CVX_LOCKER CVX_LOCKER_V2 CVX_REWARDS CVXCRV_REWARDS : Z)
    (CONVEX_POOLS : list (Z * string)) (CONVEX_VIRTUAL_REWARDS : list Z) (k : Z) :
  dict_get (addresses_to_decoders BOOSTER CVX_LOCKER CVX_LOCKER_V2 CVX_REWARDS
              CVXCRV_REWARDS CONVEX_POOLS CONVEX_VIRTUAL_REWARDS) k =
  if existsb (Z.eqb k) ([BOOSTER; CVX_LOCKER; CVX_LOCKER_V2; CVX_REWARDS; CVXCRV_REWARDS]
                        ++ map fst CONVEX_POOLS ++ CONVEX_VIRTUAL_REWARDS)
  then Some [decode_convex_events_rule] else None.
Proof.
  unfold addresses_to_decoders.
  set (r := [decode_convex_events_rule]).
  change [(BOOSTER, r); (CVX_LOCKER, r); (CVX_LOCKER_V2, r); (CVX_REWARDS, r);
          (CVXCRV_REWARDS, r)]
    with (map (fun x => (x, r)) [BOOSTER; CVX_LOCKER; CVX_LOCKER_V2; CVX_REWARDS; CVXCRV_REWARDS]).
  replace (map (fun pool : Z * string => (fst pool, r)) CONVEX_POOLS)
    with (map (fun x => (x, r)) (map fst CONVEX_POOLS)) by (rewrite map_map; reflexivity).
  rewrite !dict_get_update by apply dict_of_list_nodup.
  rewrite !dict_get_of_list_const, !existsb_app.
  destruct (existsb (Z.eqb k) CONVEX_VIRTUAL_REWARDS),
           (existsb (Z.eqb k) (map fst CONVEX_POOLS)),
           (existsb (Z.eqb k) [BOOSTER; CVX_LOCKER; CVX_LOCKER_V2; CVX_REWARDS; CVXCRV_REWARDS]);
    reflexivity.
Qed.

(* ================================================================== *)
(** * [EthereumInquirer] ([chain/ethereum/node_inquirer.py]) *)

(** The exceptions the inquirer's methods raise or catch. *)
Inductive NodeException : Type :=
| RemoteError
| BlockchainQueryError
| UnableToDecryptRemoteData
| RequestException
| TransactionNotFound
| KeyError
| IndexError_
| TypeError
| ValueError
| InputError
| DeserializationError.

(** A call that returns a value or raises. *)
Inductive Result (A : Type) : Type :=
| Ok (a : A)
| Err (e : NodeException).
Arguments Ok {A} a.
Arguments Err {A} e.

(** Decoded JSON values, as the remote APIs return them. *)
Set Warnings "-register-all".
Inductive json : Type :=
| JNull
| JBool (b : bool)
| JInt (z : Z)
| JStr (s : string)
| JList (l : list json)
| JObj (o : list (string * json)).

Fixpoint str_lookup {A : Type} (d : list (string * A)) (k : string) : option A :=
  match d with
  | [] => None
  | (k', v) :: rest => if String.eqb k' k then Some v else str_lookup rest k
  end.

Section Json.

(** [int(s)] on a string: the integer it spells, or [None] (ValueError). *)
Variable py_int_str : string -> option Z.

(** [x[key]] with a string key. *)
Definition py_getitem_str (x : json) (key : string) : Result json :=
  match x with
  | JObj o => match str_lookup o key with Some v => Ok v | None => Err KeyError end
  | _ => Err TypeError
  end.

(** [x[0]]. *)
Definition py_getitem_0 (x : json) : Result json :=
  match x with
  | JList (v :: _) => Ok v
  | JList [] => Err IndexError_
  | JStr (String c _) => Ok (JStr (String c EmptyString))
  | JStr EmptyString => Err IndexError_
  | JObj _ => Err KeyError
  | _ => Err TypeError
  end.

(** [int(x)]. *)
Definition py_int (x : json) : Result Z :=
  match x with
  | JInt z => Ok z
  | JBool b => Ok (if b then 1 else 0)
  | JStr s => match py_int_str s with Some z => Ok z | None => Err ValueError end
  | _ => Err TypeError
  end.

End Json.

Definition result_bind {A B : Type} (r : Result A) (f : A -> Result B) : Result B :=
  match r with Ok a => f a | Err e => Err e end.

Notation "x <- r ;; f" := (result_bind r (fun x => f))
  (at level 61, r at next level, right associativity).

Section Inquirer.

Variable py_int_str : string -> option Z.

(** [get_chunks(lst, n)] from [rotkehlchen.utils.misc]. *)
Variable get_chunks : list Z -> nat -> list (list Z).
(** [ens_reverse_records.call(method_name='getNames', arguments=[chunk])]. *)
Variable getNames : list Z -> Result (list string).

Definition MAX_ADDRESSES_IN_REVERSE_ENS_QUERY : nat := 80.

(** The body of the loop over one chunk: [for addr, name in zip(chunk, result)]. *)
Definition store_names (human_names : list (Z * option string))
    (pairs : list (Z * string)) : list (Z * option string) :=
  fold_left (fun acc an =>
               if String.eqb (snd an) "" then dict_setitem acc (fst an) None
               else dict_setitem acc (fst an) (Some (snd an)))
            pairs human_names.

Fixpoint reverse_lookup_chunks (human_names : list (Z * option string))
    (chunks : list (list Z)) : Result (list (Z * option string)) :=
  match chunks with
  | [] => Ok human_names
  | chunk :: rest =>
      result <- getNames chunk ;;
      reverse_lookup_chunks (store_names human_names (combine chunk result)) rest
  end.

(** [EthereumInquirer.ens_reverse_lookup]. *)
Definition ens_reverse_lookup (addresses : list Z) : Result (list (Z * option string)) :=
  reverse_lookup_chunks [] (get_chunks addresses MAX_ADDRESSES_IN_REVERSE_ENS_QUERY).

(** [self.blocks_subgraph.query(...)] for a timestamp. *)
Variable subgraph_query : Z -> Result json.

(** [EthereumInquirer._get_blocknumber_by_time_from_subgraph]: IndexError
    and KeyError of the indexing are re-raised as RemoteError. *)
Definition _get_blocknumber_by_time_from_subgraph (ts : Z) : Result Z :=
  response <- subgraph_query ts ;;
  let attempt :=
    blocks <- py_getitem_str response "blocks" ;;
    first <- py_getitem_0 blocks ;;
    number <- py_getitem_str first "number" ;;
    py_int py_int_str number in
  match attempt with
  | Err IndexError_ | Err KeyError => Err RemoteError
  | r => r
  end.

Inductive Closest : Type := before | after.

(** [self.etherscan.get_blocknumber_by_time(ts, closest)]. *)
Variable etherscan_get_blocknumber_by_time : Z -> Closest -> Result Z.

(** [EthereumInquirer.get_blocknumber_by_time]: [suppress(RemoteError)]
    around the etherscan query. *)
Definition get_blocknumber_by_time (ts : Z) (etherscan : bool) (closest : Closest) : Result Z :=
  let fallback := _get_blocknumber_by_time_from_subgraph ts in
  if etherscan then
    match etherscan_get_blocknumber_by_time ts closest with
    | Ok n => Ok n
    | Err RemoteError => fallback
    | Err e => Err e
    end
  else fallback.

(** [request_get_dict(BLOCKCYPHER_URL)] and
    [self.etherscan.get_latest_block_number()]. *)
Variable request_get_dict_blockcypher : Result (list (string * json)).
Variable etherscan_get_latest_block_number : Result Z.

Definition caught_by_query_highest_block (e : NodeException) : bool :=
  match e with
  | RemoteError | UnableToDecryptRemoteData | RequestException => true
  | _ => false
  end.

(** [EthereumInquirer.query_highest_block]; [eth_resp and 'height' in
    eth_resp] tests a non-empty dict with the key. *)
Definition query_highest_block : Result Z :=
  eth_resp <- match request_get_dict_blockcypher with
              | Ok d => Ok (Some d)
              | Err e => if caught_by_query_highest_block e then Ok None else Err e
              end ;;
  match eth_resp with
  | Some ((_ :: _) as d) =>
      match str_lookup d "height" with
      | Some h => py_int py_int_str h
      | None => etherscan_get_latest_block_number
      end
  | _ => etherscan_get_latest_block_number
  end.

End Inquirer.

(** The chains [_ens_lookup] is called for. *)
Inductive SupportedBlockchain : Type :=
| ETHEREUM
| BITCOIN
| BITCOIN_CASH
| KUSAMA
| POLKADOT.

Definition is_ethereum (b : SupportedBlockchain) : bool :=
  match b with ETHEREUM => true | _ => false end.

(** What [_ens_lookup] returns: a checksummed address on Ethereum, the
    hex of the raw address bytes on the other chains. *)
Inductive EnsResult : Type :=
| EnsAddress (a : Z)
| EnsHex (h : string).

(** The values [is_none_or_zero_address] is given: [None], a checksummed
    address string (web3 decodes an ABI [address] output so; it stands here
    for the 20-byte value it spells), or [bytes] (the decoded output of the
    multichain [addr(bytes32,uint256)]). *)
Inductive AddrValue : Type :=
| AddrNone
| AddrStr (a : Z)
| AddrBytes (b : list Byte.byte).

(** [ens.utils.is_none_or_zero_address]: [not addr or addr == EMPTY_ADDR_HEX].
    [None] and [b''] are falsy; an address string is never empty and equals
    ['0x' + '00' * 20] only for the zero address; [bytes] never equal a
    [str]. *)
Definition is_none_or_zero_address (addr : AddrValue) : bool :=
  match addr with
  | AddrNone => true
  | AddrStr a => Z.eqb a 0
  | AddrBytes b => match b with [] => true | _ :: _ => false end
  end.

(** An address output as the value above. *)
Definition address_value (addr : option Z) : AddrValue :=
  match addr with None => AddrNone | Some a => AddrStr a end.

(** [bytes.hex()]: two lowercase hex digits per byte, no prefix. *)
Definition hex_digit (n : nat) : Ascii.ascii :=
  Ascii.ascii_of_nat (if Nat.ltb n 10 then (48 + n)%nat else (87 + n)%nat).

Fixpoint bytes_hex (b : list Byte.byte) : string :=
  match b with
  | [] => EmptyString
  | x :: xs =>
      let n := Byte.to_nat x in
      String (hex_digit (Nat.div n 16)) (String (hex_digit (Nat.modulo n 16)) (bytes_hex xs))
  end.

Section EnsLookup.

(** [normalize_name] ([None]: InvalidName), [normal_name_to_hash],
    [deserialize_evm_address] ([None]: DeserializationError) and
    [SupportedBlockchain.ens_coin_type]. *)
Variable normalize_name : string -> option string.
Variable normal_name_to_hash : string -> Z.
Variable deserialize_evm_address : Z -> option Z.
Variable ens_coin_type : SupportedBlockchain -> Z.
Variables ENS_MAINNET_ADDR : Z.
Variables ENS_ABI ENS_RESOLVER_ABI ENS_RESOLVER_ABI_MULTICHAIN_ADDRESS : list string.
(** [self._call_contract(web3, contract_address, abi, method_name, arguments)],
    whose result web3 decodes by the ABI's output type: [_call_contract] for
    a call whose output is an [address] (the registry's [resolver], and
    [addr(bytes32)] on Ethereum; [None] is a [None] result), and
    [_call_contract_bytes] for one whose output is [bytes] (the multichain
    [addr(bytes32,uint256)] the other chains call). *)
Variable _call_contract : Z -> list string -> string -> list Z -> Result (option Z).
Variable _call_contract_bytes : Z -> list string -> string -> list Z -> Result (list Byte.byte).

(** [ENS_RESOLVER_ABI.copy()], extended for the other chains, and the
    arguments of the [addr] call. *)
Definition resolver_abi_and_arguments (normal_name : string) (blockchain : SupportedBlockchain)
    : list string * list Z :=
  if negb (is_ethereum blockchain)
  then (app ENS_RESOLVER_ABI ENS_RESOLVER_ABI_MULTICHAIN_ADDRESS,
        [normal_name_to_hash normal_name; ens_coin_type blockchain])
  else (ENS_RESOLVER_ABI, [normal_name_to_hash normal_name]).

(** [EthereumInquirer._ens_lookup].  The [addr] call is written once per
    output type: off Ethereum its [bytes] result is returned as
    [address.hex()], on Ethereum its address string is deserialized. *)
Definition _ens_lookup (name : string) (blockchain : SupportedBlockchain)
    : Result (option EnsResult) :=
  match normalize_name name with
  | None => Err InputError
  | Some normal_name =>
      resolver_addr <- _call_contract ENS_MAINNET_ADDR ENS_ABI "resolver"
                         [normal_name_to_hash normal_name] ;;
      if is_none_or_zero_address (address_value resolver_addr) then Ok None else
      let '(ens_resolver_abi, arguments) := resolver_abi_and_arguments normal_name blockchain in
      match resolver_addr with
      | None => Ok None
      | Some r =>
          match deserialize_evm_address r with
          | None => Ok None
          | Some deserialized_resolver_addr =>
              if negb (is_ethereum blockchain) then
                address <- _call_contract_bytes deserialized_resolver_addr ens_resolver_abi
                             "addr" arguments ;;
                if is_none_or_zero_address (AddrBytes address) then Ok None
                else Ok (Some (EnsHex (bytes_hex address)))
              else
                address <- _call_contract deserialized_resolver_addr ens_resolver_abi "addr"
                             arguments ;;
                if is_none_or_zero_address (address_value address) then Ok None
                else match address with
                     | None => Ok None
                     | Some a =>
                         match deserialize_evm_address a with
                         | Some checksummed => Ok (Some (EnsAddress checksummed))
                         | None => Ok None
                         end
                     end
          end
      end
  end.

End EnsLookup.

(** [substr in s] on strings. *)
Fixpoint str_contains (s sub : string) : bool :=
  String.prefix sub s || match s with
                         | EmptyString => false
                         | String _ s' => str_contains s' sub
                         end.

(** [EthereumInquirer.logquery_block_range]; [WEB3_LOGQUERY_BLOCK_RANGE]
    comes from the EVM base inquirer. *)
Definition logquery_block_range (WEB3_LOGQUERY_BLOCK_RANGE ETH2_DEPOSIT_ADDRESS : Z)
    (endpoint_uri : string) (contract_address : Z) : Z :=
  let infura_eth2_log_query :=
    str_contains endpoint_uri "infura.io" && Z.eqb contract_address ETH2_DEPOSIT_ADDRESS in
  if Bool.eqb infura_eth2_log_query false then WEB3_LOGQUERY_BLOCK_RANGE else 75000.

(* ------------------------------------------------------------------ *)
(** ** Facts about the inquirer *)

Lemma dict_get_some_in {A : Type} (d : list (Z * A)) (k : Z) :
  dict_get d k <> None <-> In k (map fst d).
Proof.
  induction d as [|[k0 v0] rest IH]; simpl; [tauto|].
  destruct (Z.eqb_spec k0 k) as [->|Hne].
  - split; [auto|intros _; discriminate].
  - rewrite IH. intuition congruence.
Qed.

Lemma py_getitem_str_err (x : json) (k : string) e :
  py_getitem_str x k = Err e -> e = KeyError \/ e = TypeError.
Proof.
  destruct x; simpl; try (intros H; injection H as <-; auto).
  destruct (str_lookup o k); intros H; [discriminate|injection H as <-; auto].
Qed.

Lemma py_getitem_0_err (x : json) e :
  py_getitem_0 x = Err e -> e = IndexError_ \/ e = KeyError \/ e = TypeError.
Proof.
  destruct x as [| | |[|c s]|[|v l]|]; simpl; intros H; try discriminate;
    injection H as <-; auto.
Qed.

Lemma py_int_err (f : string -> option Z) (x : json) e :
  py_int f x = Err e -> e = TypeError \/ e = ValueError.
Proof.
  destruct x as [| | |s| |]; simpl; intros H; try discriminate;
    try (injection H as <-; auto; fail).
  destruct (f s); [discriminate|]. injection H as <-; auto.
Qed.

Section EnsFacts.

Variable get_chunks : list Z -> nat -> list (list Z).
Variable getNames : list Z -> Result (list string).

Lemma store_names_no_empty (hn : list (Z * option string)) (pairs : list (Z * string)) :
  (forall a, dict_get hn a <> Some (Some "")) ->
  forall a, dict_get (store_names hn pairs) a <> Some (Some "").
Proof.
  unfold store_names. revert hn. induction pairs as [|[k name] rest IH]; intros hn Hhn;
    simpl; [exact Hhn|].
  apply IH. intros a. destruct (String.eqb_spec name "") as [->|Hne];
    rewrite dict_get_setitem; destruct (Z.eqb k a); try congruence; apply Hhn.
Qed.

Lemma reverse_lookup_chunks_no_empty (hn : list (Z * option string)) chunks d :
  (forall a, dict_get hn a <> Some (Some "")) ->
  reverse_lookup_chunks getNames hn chunks = Ok d ->
  forall a, dict_get d a <> Some (Some "").
Proof.
  revert hn. induction chunks as [|c rest IH]; intros hn Hhn; simpl.
  - intros H; injection H as <-. exact Hhn.
  - destruct (getNames c) as [names|e]; simpl; [|discriminate].
    apply IH, store_names_no_empty, Hhn.
Qed.

Lemma store_names_keys (hn : list (Z * option string)) (pairs : list (Z * string)) a :
  In a (map fst (store_names hn pairs)) <-> In a (map fst hn) \/ In a (map fst pairs).
Proof.
  unfold store_names. revert hn. induction pairs as [|[k name] rest IH]; intros hn;
    simpl; [tauto|].
  rewrite IH. destruct (String.eqb name ""); rewrite dict_setitem_keys;
    intuition (subst; auto).
Qed.

Lemma combine_fst {A B : Type} (l : list A) (l' : list B) :
  length l' = length l -> map fst (combine l l') = l.
Proof.
  revert l'. induction l as [|x xs IH]; intros [|y ys] Hl; simpl in *; try lia; auto.
  f_equal. apply IH. lia.
Qed.

Lemma reverse_lookup_chunks_keys (hn : list (Z * option string)) chunks :
  (forall c, In c chunks -> exists names, getNames c = Ok names /\ length names = length c) ->
  exists d, reverse_lookup_chunks getNames hn chunks = Ok d
            /\ forall a, In a (map fst d) <-> In a (map fst hn) \/ In a (concat chunks).
Proof.
  revert hn. induction chunks as [|c rest IH]; intros hn Hall; simpl.
  - exists hn. split; [reflexivity|]. intros a; simpl; tauto.
  - destruct (Hall c (or_introl eq_refl)) as [names [Hn Hlen]]. rewrite Hn. simpl.
    destruct (IH (store_names hn (combine c names))) as [d [Hd Hk]];
      [intros c' Hc'; apply Hall; now right|].
    exists d. split; [exact Hd|]. intros a.
    rewrite Hk, store_names_keys, combine_fst by exact Hlen. rewrite in_app_iff. tauto.
Qed.

(** ** X14: the reverse ENS lookup never maps an address to the empty
    name: an empty result from [getNames] is stored as [None]. *)
Theorem ens_reverse_lookup_no_empty_name (addresses : list Z) d :
  ens_reverse_lookup get_chunks getNames addresses = Ok d ->
  forall a, dict_get d a <> Some (Some "").
Proof.
  unfold ens_reverse_lookup. apply reverse_lookup_chunks_no_empty.
  intros a; discriminate.
Qed.

(** ** X15: when the chunks cover the input and every [getNames] call
    returns one name per address, the result has an entry (a name or
    [None]) for exactly the queried addresses. *)
Theorem ens_reverse_lookup_keys (addresses : list Z) :
  concat (get_chunks addresses MAX_ADDRESSES_IN_REVERSE_ENS_QUERY) = addresses ->
  (forall c, In c (get_chunks addresses MAX_ADDRESSES_IN_REVERSE_ENS_QUERY) ->
     exists names, getNames c = Ok names /\ length names = length c) ->
  exists d, ens_reverse_lookup get_chunks getNames addresses = Ok d
            /\ forall a, In a addresses <-> dict_get d a <> None.
Proof.
  intros Hcat Hall. unfold ens_reverse_lookup.
  destruct (reverse_lookup_chunks_keys [] _ Hall) as [d [Hd Hk]].
  exists d. split; [exact Hd|]. intros a. rewrite dict_get_some_in, Hk, Hcat. simpl. tauto.
Qed.

Lemma reverse_lookup_chunks_err (hn : list (Z * option string)) chunks e :
  reverse_lookup_chunks getNames hn chunks = Err e <->
  exists prefix c rest, chunks = app prefix (c :: rest)
    /\ (forall p, In p prefix -> exists names, getNames p = Ok names)
    /\ getNames c = Err e.
Proof.
  revert hn. induction chunks as [|c0 rest IH]; intros hn; simpl.
  - split; [discriminate|]. intros [[|p ps] [c [r [H _]]]]; discriminate.
  - destruct (getNames c0) as [names|e0] eqn:Hc0; simpl.
    + rewrite IH. split.
      * intros [prefix [c [r [-> [Hp Hc]]]]]. exists (c0 :: prefix), c, r.
        split; [reflexivity|]. split; [|exact Hc].
        intros p [<-|Hin]; [now exists names|now apply Hp].
      * intros [[|p ps] [c [r [Heq [Hp Hc]]]]]; simpl in Heq; injection Heq as <- ->.
        -- congruence.
        -- exists ps, c, r. split; [reflexivity|]. split; [|exact Hc].
           intros p' Hin. apply Hp. now right.
    + split.
      * intros H; injection H as <-. exists [], c0, rest. split; [reflexivity|].
        split; [intros p []|exact Hc0].
      * intros [[|p ps] [c [r [Heq [Hp Hc]]]]]; simpl in Heq; injection Heq as <- ->.
        -- congruence.
        -- destruct (Hp c0 (or_introl eq_refl)) as [names Hn]. congruence.
Qed.

(** ** X16: the reverse lookup raises exactly when some [getNames] call
    raises, and then it raises the error of the first failing chunk (the
    names gathered before it are not returned). *)
Theorem ens_reverse_lookup_raises_first_error (addresses : list Z) e :
  ens_reverse_lookup get_chunks getNames addresses = Err e <->
  exists prefix c rest,
    get_chunks addresses MAX_ADDRESSES_IN_REVERSE_ENS_QUERY = app prefix (c :: rest)
    /\ (forall p, In p prefix -> exists names, getNames p = Ok names)
    /\ getNames c = Err e.
Proof. unfold ens_reverse_lookup. apply reverse_lookup_chunks_err. Qed.

End EnsFacts.

Section InquirerFacts.

Variable py_int_str : string -> option Z.
Variable subgraph_query : Z -> Result json.
Variable etherscan_get_blocknumber_by_time : Z -> Closest -> Result Z.

Let from_subgraph := _get_blocknumber_by_time_from_subgraph py_int_str subgraph_query.

(** ** X17: a subgraph response whose first block has a [number] that
    [int()] accepts yields that number; further blocks and keys are
    ignored. *)
Theorem subgraph_well_formed_response (ts : Z) o b more number n :
  subgraph_query ts = Ok (JObj o) ->
  str_lookup o "blocks" = Some (JList (JObj b :: more)) ->
  str_lookup b "number" = Some number ->
  py_int py_int_str number = Ok n ->
  from_subgraph ts = Ok n.
Proof.
  intros Hq Hb Hn Hi. unfold from_subgraph, _get_blocknumber_by_time_from_subgraph.
  rewrite Hq. simpl. rewrite Hb. simpl. rewrite Hn. simpl. now rewrite Hi.
Qed.

(** ** X18: the subgraph query never raises IndexError or KeyError of
    its own: apart from an error of the query itself it raises RemoteError
    (missing key, empty list), TypeError or ValueError. *)
Theorem subgraph_error_kinds (ts : Z) e :
  from_subgraph ts = Err e ->
  subgraph_query ts = Err e \/ e = RemoteError \/ e = TypeError \/ e = ValueError.
Proof.
  unfold from_subgraph, _get_blocknumber_by_time_from_subgraph.
  destruct (subgraph_query ts) as [response|e0]; simpl; [|intros H; left; congruence].
  intros H. right.
  destruct (py_getitem_str response "blocks") as [blocks|e1] eqn:H1; simpl in H.
  { destruct (py_getitem_0 blocks) as [first|e2] eqn:H2; simpl in H.
    { destruct (py_getitem_str first "number") as [number|e3] eqn:H3; simpl in H.
      { destruct (py_int py_int_str number) as [z|e4] eqn:H4; [discriminate|].
        destruct (py_int_err _ _ _ H4) as [->| ->]; injection H as <-; auto. }
      destruct (py_getitem_str_err _ _ _ H3) as [->| ->]; injection H as <-; auto. }
    destruct (py_getitem_0_err _ _ H2) as [->|[->| ->]]; injection H as <-; auto. }
  destruct (py_getitem_str_err _ _ _ H1) as [->| ->]; injection H as <-; auto.
Qed.

(** ** X19: a missing [blocks] or [number] key, or an empty block list,
    makes the subgraph query raise RemoteError. *)
Theorem subgraph_missing_data_remote_error (ts : Z) o :
  subgraph_query ts = Ok (JObj o) ->
  (str_lookup o "blocks" = None
   \/ str_lookup o "blocks" = Some (JList [])
   \/ exists b more, str_lookup o "blocks" = Some (JList (JObj b :: more))
                     /\ str_lookup b "number" = None) ->
  from_subgraph ts = Err RemoteError.
Proof.
  intros Hq Hcase. unfold from_subgraph, _get_blocknumber_by_time_from_subgraph.
  rewrite Hq. simpl.
  destruct Hcase as [Hb|[Hb|[b [more [Hb Hn]]]]]; rewrite Hb; simpl; [reflexivity|reflexivity|].
  now rewrite Hn.
Qed.

(** ** X20: a [number] that [int()] rejects raises ValueError out of the
    subgraph query: only IndexError and KeyError are turned into
    RemoteError. *)
Theorem subgraph_bad_number_value_error (ts : Z) o b more s :
  subgraph_query ts = Ok (JObj o) ->
  str_lookup o "blocks" = Some (JList (JObj b :: more)) ->
  str_lookup b "number" = Some (JStr s) ->
  py_int_str s = None ->
  from_subgraph ts = Err ValueError.
Proof.
  intros Hq Hb Hn Hs. unfold from_subgraph, _get_blocknumber_by_time_from_subgraph.
  rewrite Hq. simpl. rewrite Hb. simpl. rewrite Hn. simpl. now rewrite Hs.
Qed.

Let by_time := get_blocknumber_by_time py_int_str subgraph_query
                 etherscan_get_blocknumber_by_time.

(** ** X21: a RemoteError raised by [get_blocknumber_by_time] always comes
    from the subgraph: etherscan's RemoteError is suppressed. *)
Theorem get_blocknumber_remote_error_from_subgraph (ts : Z) (etherscan : bool) closest :
  by_time ts etherscan closest = Err RemoteError ->
  from_subgraph ts = Err RemoteError.
Proof.
  unfold by_time, get_blocknumber_by_time. fold from_subgraph.
  destruct etherscan; [|exact id].
  destruct (etherscan_get_blocknumber_by_time ts closest) as [n|[]];
    try discriminate; exact id.
Qed.

(** ** X22: a block number returned by [get_blocknumber_by_time] is
    etherscan's answer (when asked for it), or the subgraph's answer when
    etherscan was not asked or raised RemoteError; any other etherscan
    error propagates without querying the subgraph. *)
Theorem get_blocknumber_by_time_source (ts : Z) (etherscan : bool) closest r :
  by_time ts etherscan closest = r ->
  (etherscan = true /\ exists n, etherscan_get_blocknumber_by_time ts closest = Ok n /\ r = Ok n)
  \/ (etherscan = true /\ exists e, e <> RemoteError
        /\ etherscan_get_blocknumber_by_time ts closest = Err e /\ r = Err e)
  \/ ((etherscan = false \/ etherscan_get_blocknumber_by_time ts closest = Err RemoteError)
      /\ r = from_subgraph ts).
Proof.
  intros <-. unfold by_time, get_blocknumber_by_time. fold from_subgraph.
  destruct etherscan; [|right; right; split; [left|]; reflexivity].
  destruct (etherscan_get_blocknumber_by_time ts closest) as [n|e] eqn:He.
  - left. split; [reflexivity|]. exists n. split; reflexivity.
  - destruct e.
    1: right; right; split; [right|]; reflexivity.
    all: right; left; split; [reflexivity|].
    all: eexists; split; [|split; reflexivity]; discriminate.
Qed.

Variable request_get_dict_blockcypher : Result (list (string * json)).
Variable etherscan_get_latest_block_number : Result Z.

Let highest := query_highest_block py_int_str request_get_dict_blockcypher
                 etherscan_get_latest_block_number.

(** ** X23: when blockcypher answers with a [height], the highest block is
    [int(height)] (a non-numeric height raises ValueError) and etherscan
    is not used. *)
Theorem query_highest_block_uses_height d h :
  request_get_dict_blockcypher = Ok d ->
  str_lookup d "height" = Some h ->
  highest = py_int py_int_str h.
Proof.
  intros Hr Hh. unfold highest, query_highest_block. rewrite Hr. simpl.
  destruct d as [|kv d']; [discriminate|]. now rewrite Hh.
Qed.

(** ** X24: a blockcypher failure the method catches (RemoteError,
    UnableToDecryptRemoteData, a requests exception), or an answer without
    [height], makes the highest block etherscan's answer. *)
Theorem query_highest_block_fallback :
  (exists e, request_get_dict_blockcypher = Err e /\ caught_by_query_highest_block e = true)
  \/ (exists d, request_get_dict_blockcypher = Ok d /\ str_lookup d "height" = None) ->
  highest = etherscan_get_latest_block_number.
Proof.
  unfold highest, query_highest_block.
  intros [[e [Hr Hc]]|[d [Hr Hh]]]; rewrite Hr; simpl.
  - now rewrite Hc.
  - destruct d as [|kv d']; [reflexivity|]. now rewrite Hh.
Qed.

(** ** X25: the errors [query_highest_block] raises are a blockcypher error
    it does not catch, TypeError or ValueError from [int(height)], or an
    etherscan error. *)
Theorem query_highest_block_error_kinds e :
  highest = Err e ->
  (request_get_dict_blockcypher = Err e /\ caught_by_query_highest_block e = false)
  \/ e = TypeError \/ e = ValueError \/ etherscan_get_latest_block_number = Err e.
Proof.
  unfold highest, query_highest_block.
  destruct request_get_dict_blockcypher as [d|e0] eqn:Hr; simpl.
  - destruct d as [|kv d']; [intros H; right; right; right; exact H|].
    destruct (str_lookup (kv :: d') "height") as [h|]; [|intros H; right; right; right; exact H].
    intros H. right. destruct (py_int_err _ _ _ H); auto.
  - destruct (caught_by_query_highest_block e0) eqn:Hc; simpl.
    + intros H; right; right; right; exact H.
    + intros H; injection H as <-. left; auto.
Qed.

End InquirerFacts.

Lemma prefix_app (s q : string) : String.prefix s (s ++ q) = true.
Proof.
  induction s as [|c s IH]; simpl; [now destruct q|].
  destruct (Ascii.ascii_dec c c) as [_|]; [exact IH|congruence].
Qed.

Lemma prefix_spec (sub s : string) :
  String.prefix sub s = true -> exists q, s = (sub ++ q)%string.
Proof.
  revert s. induction sub as [|c sub IH]; intros s; simpl.
  - intros _. now exists s.
  - destruct s as [|c' s]; simpl; [discriminate|].
    destruct (Ascii.ascii_dec c c') as [<-|]; [|discriminate].
    intros H. destruct (IH s H) as [q ->]. now exists q.
Qed.

(** [str_contains] is Python's [sub in s]. *)
Lemma str_contains_spec (s sub : string) :
  str_contains s sub = true <-> exists p q, s = (p ++ sub ++ q)%string.
Proof.
  induction s as [|c s IH]; cbn [str_contains]; rewrite orb_true_iff.
  - split.
    + intros [H|H]; [|discriminate]. destruct (prefix_spec _ _ H) as [q Hq].
      exists EmptyString, q. exact Hq.
    + intros [[|c p] [q Hq]]; [|discriminate]. left. simpl in Hq. rewrite Hq. apply prefix_app.
  - rewrite IH. split.
    + intros [H|[p [q Hq]]].
      * destruct (prefix_spec _ _ H) as [q Hq]. exists EmptyString, q. exact Hq.
      * exists (String c p), q. simpl. now rewrite Hq.
    + intros [[|c' p] [q Hq]].
      * left. simpl in Hq. rewrite Hq. apply prefix_app.
      * right. simpl in Hq. injection Hq as _ Hq. eauto.
Qed.

(** ** X26: the log query range is 75000 blocks exactly for an Infura
    endpoint querying the Eth2 deposit contract, and the default range
    for every other endpoint or contract. *)
Theorem logquery_block_range_cases (WEB3_LOGQUERY_BLOCK_RANGE ETH2_DEPOSIT_ADDRESS : Z)
    (endpoint_uri : string) (contract_address : Z) :
  let r := logquery_block_range WEB3_LOGQUERY_BLOCK_RANGE ETH2_DEPOSIT_ADDRESS
             endpoint_uri contract_address in
  ((exists p q, endpoint_uri = (p ++ "infura.io" ++ q)%string)
   /\ contract_address = ETH2_DEPOSIT_ADDRESS /\ r = 75000)
  \/ (~ ((exists p q, endpoint_uri = (p ++ "infura.io" ++ q)%string)
         /\ contract_address = ETH2_DEPOSIT_ADDRESS)
      /\ r = WEB3_LOGQUERY_BLOCK_RANGE).
Proof.
  cbv zeta. unfold logquery_block_range.
  destruct (str_contains endpoint_uri "infura.io") eqn:Hc;
    destruct (Z.eqb_spec contract_address ETH2_DEPOSIT_ADDRESS) as [He|He]; simpl.
  - left. rewrite str_contains_spec in Hc. auto.
  - right. split; [tauto|reflexivity].
  - right. split; [|reflexivity]. intros [Hx _]. pose proof (proj2 (str_contains_spec endpoint_uri "infura.io") Hx). congruence.
  - right. split; [tauto|reflexivity].
Qed.

Section EnsLookupFacts.

Variable normalize_name : string -> option string.
Variable normal_name_to_hash : string -> Z.
Variable deserialize_evm_address : Z -> option Z.
Variable ens_coin_type : SupportedBlockchain -> Z.
Variables ENS_MAINNET_ADDR : Z.
Variables ENS_ABI ENS_RESOLVER_ABI ENS_RESOLVER_ABI_MULTICHAIN_ADDRESS : list string.
Variable _call_contract : Z -> list string -> string -> list Z -> Result (option Z).
Variable _call_contract_bytes : Z -> list string -> string -> list Z -> Result (list Byte.byte).

Let lookup := _ens_lookup normalize_name normal_name_to_hash deserialize_evm_address
                ens_coin_type ENS_MAINNET_ADDR ENS_ABI ENS_RESOLVER_ABI
                ENS_RESOLVER_ABI_MULTICHAIN_ADDRESS _call_contract _call_contract_bytes.
Let abi_args := resolver_abi_and_arguments normal_name_to_hash ens_coin_type ENS_RESOLVER_ABI
                  ENS_RESOLVER_ABI_MULTICHAIN_ADDRESS.

(** ** X27: a name [_ens_lookup] resolves went through both contract
    calls: the registry's [resolver] call returned a non-zero resolver that
    deserializes, and the resolver's [addr] call gave the result.  On
    Ethereum that call returned a non-zero address and the result is its
    deserialization; on the other chains (multichain ABI, coin type as
    second argument) it returned non-empty bytes, and the result is their
    hex, whatever the bytes are (20 zero bytes included). *)
Theorem ens_lookup_success (name : string) (blockchain : SupportedBlockchain) (r : EnsResult) :
  lookup name blockchain = Ok (Some r) ->
  exists normal_name resolver deserialized,
    normalize_name name = Some normal_name
    /\ _call_contract ENS_MAINNET_ADDR ENS_ABI "resolver" [normal_name_to_hash normal_name]
       = Ok (Some resolver)
    /\ resolver <> 0
    /\ deserialize_evm_address resolver = Some deserialized
    /\ (if is_ethereum blockchain
        then exists address a,
          _call_contract deserialized (fst (abi_args normal_name blockchain)) "addr"
            (snd (abi_args normal_name blockchain)) = Ok (Some address)
          /\ address <> 0
          /\ deserialize_evm_address address = Some a
          /\ r = EnsAddress a
        else exists address,
          _call_contract_bytes deserialized (fst (abi_args normal_name blockchain)) "addr"
            (snd (abi_args normal_name blockchain)) = Ok address
          /\ address <> []
          /\ r = EnsHex (bytes_hex address)).
Proof.
  unfold lookup, abi_args, _ens_lookup.
  destruct (normalize_name name) as [normal|]; [|discriminate].
  destruct (_call_contract ENS_MAINNET_ADDR ENS_ABI "resolver" [normal_name_to_hash normal])
    as [[res|]|e] eqn:Hres; simpl; try discriminate.
  destruct (Z.eqb_spec res 0) as [|Hres0]; [discriminate|].
  destruct (resolver_abi_and_arguments normal_name_to_hash ens_coin_type ENS_RESOLVER_ABI
              ENS_RESOLVER_ABI_MULTICHAIN_ADDRESS normal blockchain) as [abi args] eqn:Hab.
  destruct (deserialize_evm_address res) as [des|] eqn:Hdes; [|discriminate].
  intros H. exists normal, res, des.
  refine (conj eq_refl (conj Hres (conj Hres0 (conj Hdes _)))).
  rewrite Hab. simpl. destruct (is_ethereum blockchain); simpl in H.
  - destruct (_call_contract des abi "addr" args) as [[addr|]|e] eqn:Haddr; simpl in H;
      try discriminate.
    destruct (Z.eqb_spec addr 0) as [|Haddr0]; [discriminate|].
    destruct (deserialize_evm_address addr) as [a|] eqn:Ha; [|discriminate].
    injection H as <-. exists addr, a. auto.
  - destruct (_call_contract_bytes des abi "addr" args) as [addr|e] eqn:Haddr; simpl in H;
      [|discriminate].
    destruct addr as [|b bs]; [discriminate|].
    injection H as <-. exists (b :: bs). split; [reflexivity|]. split; [discriminate|reflexivity].
Qed.

(** ** X28: [_ens_lookup] raises InputError for an invalid name and
    otherwise only the error of one of its two contract calls: a resolver
    or address that fails to deserialize gives [None], never an error. *)
Theorem ens_lookup_errors (name : string) (blockchain : SupportedBlockchain) (e : NodeException) :
  lookup name blockchain = Err e ->
  (normalize_name name = None /\ e = InputError)
  \/ (exists normal_name, normalize_name name = Some normal_name
        /\ _call_contract ENS_MAINNET_ADDR ENS_ABI "resolver" [normal_name_to_hash normal_name]
           = Err e)
  \/ (exists normal_name resolver deserialized,
        normalize_name name = Some normal_name
        /\ _call_contract ENS_MAINNET_ADDR ENS_ABI "resolver" [normal_name_to_hash normal_name]
           = Ok (Some resolver)
        /\ deserialize_evm_address resolver = Some deserialized
        /\ (if is_ethereum blockchain
            then _call_contract deserialized (fst (abi_args normal_name blockchain)) "addr"
                   (snd (abi_args normal_name blockchain)) = Err e
            else _call_contract_bytes deserialized (fst (abi_args normal_name blockchain)) "addr"
                   (snd (abi_args normal_name blockchain)) = Err e)).
Proof.
  unfold lookup, abi_args, _ens_lookup.
  destruct (normalize_name name) as [normal|].
  2: intros H; injection H as <-; left; auto.
  destruct (_call_contract ENS_MAINNET_ADDR ENS_ABI "resolver" [normal_name_to_hash normal])
    as [[res|]|e0] eqn:Hres; simpl; try discriminate.
  2: intros H; injection H as <-; right; left; exists normal; auto.
  destruct (Z.eqb res 0); [discriminate|].
  destruct (resolver_abi_and_arguments normal_name_to_hash ens_coin_type ENS_RESOLVER_ABI
              ENS_RESOLVER_ABI_MULTICHAIN_ADDRESS normal blockchain) as [abi args] eqn:Hab.
  destruct (deserialize_evm_address res) as [des|] eqn:Hdes; [|discriminate].
  intros H. right; right. exists normal, res, des.
  refine (conj eq_refl (conj Hres (conj Hdes _))). rewrite Hab. simpl.
  destruct (is_ethereum blockchain); simpl in H.
  - destruct (_call_contract des abi "addr" args) as [[addr|]|e1] eqn:Haddr; simpl in H.
    + destruct (Z.eqb addr 0); [discriminate|].
      destruct (deserialize_evm_address addr); discriminate.
    + discriminate.
    + injection H as <-. reflexivity.
  - destruct (_call_contract_bytes des abi "addr" args) as [addr|e1] eqn:Haddr; simpl in H.
    + destruct addr; discriminate.
    + injection H as <-. reflexivity.
Qed.

(** ** X29: off Ethereum, once the resolver is found, any non-empty bytes
    the multichain [addr] call returns are the result, as their hex: 20
    zero bytes are not taken for the zero address (they are [bytes], not the
    string [EMPTY_ADDR_HEX]); only empty bytes give [None]. *)
Theorem ens_lookup_other_chain_bytes (name normal_name : string)
    (blockchain : SupportedBlockchain) (resolver deserialized : Z) (address : list Byte.byte) :
  normalize_name name = Some normal_name ->
  _call_contract ENS_MAINNET_ADDR ENS_ABI "resolver" [normal_name_to_hash normal_name]
    = Ok (Some resolver) ->
  resolver <> 0 ->
  deserialize_evm_address resolver = Some deserialized ->
  is_ethereum blockchain = false ->
  _call_contract_bytes deserialized (fst (abi_args normal_name blockchain)) "addr"
    (snd (abi_args normal_name blockchain)) = Ok address ->
  lookup name blockchain
  = Ok (match address with [] => None | _ :: _ => Some (EnsHex (bytes_hex address)) end).
Proof.
  intros Hn Hres Hres0 Hdes Heth Haddr.
  unfold lookup, _ens_lookup. rewrite Hn, Hres. simpl.
  apply Z.eqb_neq in Hres0. rewrite Hres0.
  unfold abi_args in Haddr.
  destruct (resolver_abi_and_arguments normal_name_to_hash ens_coin_type ENS_RESOLVER_ABI
              ENS_RESOLVER_ABI_MULTICHAIN_ADDRESS normal_name blockchain) as [abi args].
  simpl in Haddr. rewrite Hdes, Heth. simpl. rewrite Haddr. simpl.
  destruct address; reflexivity.
Qed.

End EnsLookupFacts.

(* ================================================================== *)
(** * Concrete runs of the further properties *)

(** A deposit log (topic 0 = 8, a reward topic) over three events: a
    spend of cvxCRV, a receive of an unknown asset and an already
    classified reward. *)
Definition ex_decode_partial (ctx : DecoderContext) :=
  _decode_convex_events ex_resolve_partial [] [7] [8] (fun _ => "1") ctx.

Definition ex_classified_reward : HistoryEvent :=
  mkEvent RECEIVE REWARD "cvxCRV" 0 None (Some 1) None None.

Definition ex_mixed_ctx : DecoderContext :=
  mkDecoderContext (mkLog 5 [8; 2] []) (mkTx 1)
    [ex_spend_event; ex_unknown_receive; ex_classified_reward].

Definition ex_mixed_out : list HistoryEvent :=
  Eval vm_compute in fst (fst (ex_decode_partial ex_mixed_ctx)).

Lemma decoder_keeps_event_identity_witness :
  let e' := nth 0 ex_mixed_out ex_spend_event in
  asset e' = asset ex_spend_event /\ balance_amount e' = balance_amount ex_spend_event
  /\ address e' = address ex_spend_event /\ location_label e' = location_label ex_spend_event.
Proof.
  intros e'.
  apply (decoder_keeps_event_identity ex_resolve_partial [] [7] [8] (fun _ => "1")
           ex_mixed_ctx 0 ex_spend_event e'); vm_compute; reflexivity.
Defined.

Lemma decoder_single_classification_witness :
  nth_error (fst (fst (ex_decode_partial ex_mixed_ctx))) 2 = Some ex_classified_reward.
Proof.
  apply (decoder_single_classification ex_resolve_partial [] [7] [8] (fun _ => "1")
           ex_mixed_ctx 2 ex_classified_reward).
  - reflexivity.
  - simpl. intros [_ H]. discriminate H.
Defined.

Lemma decoder_short_log_raises_witness :
  ex_decode_partial (mkDecoderContext (mkLog 5 [8] []) (mkTx 1) [ex_spend_event])
  = ([ex_spend_event], [], Raised IndexError).
Proof.
  apply (decoder_short_log_raises ex_resolve_partial [] [7] [8] (fun _ => "1")).
  simpl. lia.
Defined.

Lemma decoder_notifications_exact_witness :
  snd (fst (ex_decode_partial ex_mixed_ctx)) = [mkNotification ex_unknown_receive CPT_CONVEX].
Proof.
  unfold ex_decode_partial.
  rewrite (decoder_notifications_exact ex_resolve_partial [] [7] [8] (fun _ => "1")
             ex_mixed_ctx 8 2 [] eq_refl).
  reflexivity.
Defined.

Lemma decoder_changed_events_tagged_witness :
  let e' := nth 0 ex_mixed_out ex_spend_event in
  counterparty e' = Some CPT_CONVEX /\ exists n, notes e' = Some n.
Proof.
  intros e'.
  apply (decoder_changed_events_tagged ex_resolve_partial [] [7] [8] (fun _ => "1")
           ex_mixed_ctx 0 ex_spend_event e').
  - reflexivity.
  - vm_compute. reflexivity.
  - vm_compute. discriminate.
Defined.

Lemma decoder_reads_first_data_word_witness :
  let ctx := mkDecoderContext (mkLog 5 [8; 2] ex_raw_one) (mkTx 1) [ex_spend_event] in
  ex_decode_partial (with_data ctx (app ex_raw_one [Byte.x01; Byte.xff])) = ex_decode_partial ctx.
Proof.
  intros ctx.
  apply (decoder_reads_first_data_word ex_resolve_partial [] [7] [8] (fun _ => "1") ctx
           [Byte.x01; Byte.xff]).
  vm_compute. lia.
Defined.

(** A receive of cvxCRV by the transaction's sender (1), from an ABRA
    address (200), under the transfer signature (100). *)
Definition ex_known_receive : HistoryEvent :=
  mkEvent RECEIVE NONE "cvxCRV" 1 (Some 9) (Some 1) None None.

Definition ex_transfer_ctx : EnricherContext :=
  mkEnricherContext (mkLog 5 [100; 200] []) (mkTx 1) ex_known_receive.

Lemma enricher_idempotent_witness :
  let e' := fst (ex_enrich ex_resolve ex_transfer_ctx) in
  ex_enrich ex_resolve (with_event ex_transfer_ctx e') = (e', Returned DEFAULT_ENRICHMENT_OUTPUT).
Proof.
  intros e'.
  apply (enricher_idempotent ex_resolve [] [200] 100 (fun _ => "1") ex_transfer_ctx e'
           DEFAULT_ENRICHMENT_OUTPUT).
  vm_compute. reflexivity.
Defined.

Lemma enricher_other_signature_noop_witness :
  ex_enrich ex_resolve (mkEnricherContext (mkLog 5 [300] []) (mkTx 1) ex_known_receive)
  = (ex_known_receive, Returned DEFAULT_ENRICHMENT_OUTPUT).
Proof.
  apply (enricher_other_signature_noop ex_resolve [] [200] 100 (fun _ => "1")
           (mkEnricherContext (mkLog 5 [300] []) (mkTx 1) ex_known_receive) 300 []).
  - reflexivity.
  - lia.
Defined.

Lemma enricher_no_topics_raises_witness :
  ex_enrich ex_resolve (mkEnricherContext (mkLog 5 [] []) (mkTx 1) ex_known_receive)
  = (ex_known_receive, Raised IndexError).
Proof.
  apply (enricher_no_topics_raises ex_resolve [] [200] 100 (fun _ => "1")
           (mkEnricherContext (mkLog 5 [] []) (mkTx 1) ex_known_receive)).
  reflexivity.
Defined.

(** [get_chunks]: consecutive slices of [n] elements. *)
Fixpoint ex_chunks (fuel n : nat) (l : list Z) : list (list Z) :=
  match fuel, l with
  | O, _ | _, [] => []
  | S fuel', _ => firstn n l :: ex_chunks fuel' n (skipn n l)
  end.

Definition ex_get_chunks (l : list Z) (n : nat) : list (list Z) := ex_chunks (length l) n l.

(** [getNames]: address 2 has no reverse record. *)
Definition ex_getNames (chunk : list Z) : Result (list string) :=
  Ok (map (fun a => if Z.eqb a 2 then "" else "name.eth") chunk).

(** 81 addresses: two chunks of the reverse-records contract. *)
Definition ex_addresses : list Z := map Z.of_nat (seq 1 81).

Definition ex_human_names : list (Z * option string) :=
  Eval vm_compute in
  match ens_reverse_lookup ex_get_chunks ex_getNames ex_addresses with
  | Ok d => d
  | Err _ => []
  end.

Lemma ens_reverse_lookup_no_empty_name_witness :
  dict_get ex_human_names 2 <> Some (Some "").
Proof.
  apply (ens_reverse_lookup_no_empty_name ex_get_chunks ex_getNames ex_addresses).
  vm_compute. reflexivity.
Defined.

Lemma ens_reverse_lookup_keys_witness :
  exists d, ens_reverse_lookup ex_get_chunks ex_getNames ex_addresses = Ok d
            /\ forall a, In a ex_addresses <-> dict_get d a <> None.
Proof.
  apply (ens_reverse_lookup_keys ex_get_chunks ex_getNames ex_addresses).
  - vm_compute. reflexivity.
  - intros c Hc. vm_compute in Hc. destruct Hc as [<-|[<-|[]]];
      eexists; split; reflexivity.
Defined.

(** [int()] on a string of decimal digits. *)
Fixpoint decimal_value (s : string) (acc : Z) : option Z :=
  match s with
  | EmptyString => Some acc
  | String c s' =>
      let d := Z.of_nat (Ascii.nat_of_ascii c) - 48 in
      if Z.leb 0 d && Z.leb d 9 then decimal_value s' (acc * 10 + d) else None
  end.

Definition ex_int_str (s : string) : option Z :=
  match s with EmptyString => None | _ => decimal_value s 0 end.

Definition ex_block (number : json) : json :=
  JObj [("id", JStr "0xab"); ("number", number); ("timestamp", JStr "1600000000")].

Definition ex_subgraph (blocks : json) (_ : Z) : Result json :=
  Ok (JObj [("blocks", blocks)]).

Lemma subgraph_well_formed_response_witness :
  _get_blocknumber_by_time_from_subgraph ex_int_str
    (ex_subgraph (JList [ex_block (JStr "10836234")])) 1600000000 = Ok 10836234.
Proof.
  apply (subgraph_well_formed_response ex_int_str _ 1600000000
           [("blocks", JList [ex_block (JStr "10836234")])]
           [("id", JStr "0xab"); ("number", JStr "10836234"); ("timestamp", JStr "1600000000")]
           [] (JStr "10836234") 10836234); try reflexivity.
Defined.

Lemma subgraph_error_kinds_witness :
  ex_subgraph (JList [JStr "x"]) 0 = Err TypeError
  \/ TypeError = RemoteError \/ TypeError = TypeError \/ TypeError = ValueError.
Proof.
  apply (subgraph_error_kinds ex_int_str (ex_subgraph (JList [JStr "x"])) 0 TypeError).
  reflexivity.
Defined.

Lemma subgraph_missing_data_remote_error_witness :
  _get_blocknumber_by_time_from_subgraph ex_int_str (ex_subgraph (JList [])) 0 = Err RemoteError.
Proof.
  apply (subgraph_missing_data_remote_error ex_int_str (ex_subgraph (JList [])) 0
           [("blocks", JList [])]).
  - reflexivity.
  - right. left. reflexivity.
Defined.

Lemma subgraph_bad_number_value_error_witness :
  _get_blocknumber_by_time_from_subgraph ex_int_str
    (ex_subgraph (JList [ex_block (JStr "0x10")])) 0 = Err ValueError.
Proof.
  apply (subgraph_bad_number_value_error ex_int_str _ 0
           [("blocks", JList [ex_block (JStr "0x10")])]
           [("id", JStr "0xab"); ("number", JStr "0x10"); ("timestamp", JStr "1600000000")]
           [] "0x10"); try reflexivity.
Defined.

Definition ex_etherscan_down (_ : Z) (_ : Closest) : Result Z := Err RemoteError.

Lemma get_blocknumber_remote_error_from_subgraph_witness :
  _get_blocknumber_by_time_from_subgraph ex_int_str (ex_subgraph (JList [])) 0 = Err RemoteError.
Proof.
  apply (get_blocknumber_remote_error_from_subgraph ex_int_str (ex_subgraph (JList []))
           ex_etherscan_down 0 true before).
  reflexivity.
Defined.

Lemma get_blocknumber_by_time_source_witness :
  let r := get_blocknumber_by_time ex_int_str
             (ex_subgraph (JList [ex_block (JStr "10836234")])) ex_etherscan_down
             1600000000 true before in
  (true = true /\ exists n, ex_etherscan_down 1600000000 before = Ok n /\ r = Ok n)
  \/ (true = true /\ exists e, e <> RemoteError
        /\ ex_etherscan_down 1600000000 before = Err e /\ r = Err e)
  \/ ((true = false \/ ex_etherscan_down 1600000000 before = Err RemoteError)
      /\ r = _get_blocknumber_by_time_from_subgraph ex_int_str
               (ex_subgraph (JList [ex_block (JStr "10836234")])) 1600000000).
Proof.
  intros r. apply get_blocknumber_by_time_source. reflexivity.
Defined.

Lemma query_highest_block_uses_height_witness :
  query_highest_block ex_int_str (Ok [("name", JStr "ETH.main"); ("height", JInt 18000000)])
    (Err RemoteError) = Ok 18000000.
Proof.
  apply (query_highest_block_uses_height ex_int_str _ _
           [("name", JStr "ETH.main"); ("height", JInt 18000000)] (JInt 18000000));
    reflexivity.
Defined.

Lemma query_highest_block_fallback_witness :
  query_highest_block ex_int_str (Err RequestException) (Ok 17999990) = Ok 17999990.
Proof.
  apply query_highest_block_fallback. left. exists RequestException. split; reflexivity.
Defined.

Lemma query_highest_block_error_kinds_witness :
  (Err (A := list (string * json)) KeyError = Err KeyError
   /\ caught_by_query_highest_block KeyError = false)
  \/ KeyError = TypeError \/ KeyError = ValueError
  \/ Ok (A := Z) 17999990 = Err KeyError.
Proof.
  apply (query_highest_block_error_kinds ex_int_str (Err KeyError) (Ok 17999990) KeyError).
  reflexivity.
Defined.

(** An ENS setup: the registry (1000) points every name at resolver 77,
    which knows the Ethereum address 1234 and, for the other chains, the 20
    zero bytes; names are taken as already normal and the empty name is
    invalid. *)
Definition ex_normalize_name (name : string) : option string :=
  if String.eqb name "" then None else Some name.

Definition ex_call_contract (contract : Z) (_ : list string) (method_name : string)
    (_ : list Z) : Result (option Z) :=
  if String.eqb method_name "resolver" then Ok (Some 77)
  else if Z.eqb contract 77 then Ok (Some 1234) else Ok None.

Definition ex_call_contract_bytes (contract : Z) (_ : list string) (_ : string)
    (_ : list Z) : Result (list Byte.byte) :=
  if Z.eqb contract 77 then Ok (repeat Byte.x00 20) else Ok [].

Definition ex_resolver_down (_ : Z) (_ : list string) (method_name : string)
    (_ : list Z) : Result (option Z) :=
  if String.eqb method_name "resolver" then Ok (Some 77) else Err RemoteError.

Definition ex_resolver_down_bytes (_ : Z) (_ : list string) (_ : string)
    (_ : list Z) : Result (list Byte.byte) :=
  Err RemoteError.

Lemma ens_lookup_success_witness :
  exists normal_name resolver deserialized,
    ex_normalize_name "rotki.eth" = Some normal_name
    /\ ex_call_contract 1000 ["resolver"] "resolver" [42] = Ok (Some resolver)
    /\ resolver <> 0
    /\ Some resolver = Some deserialized
    /\ exists address a,
         ex_call_contract deserialized ["addr"] "addr" [42] = Ok (Some address)
         /\ address <> 0
         /\ Some address = Some a
         /\ EnsAddress 1234 = EnsAddress a.
Proof.
  apply (ens_lookup_success ex_normalize_name (fun _ => 42) (fun a => Some a)
           (fun _ => 0) 1000 ["resolver"] ["addr"] ["addr_multichain"] ex_call_contract
           ex_call_contract_bytes "rotki.eth" ETHEREUM (EnsAddress 1234)).
  reflexivity.
Defined.

Lemma ens_lookup_errors_witness :
  (ex_normalize_name "rotki.eth" = None /\ RemoteError = InputError)
  \/ (exists normal_name, ex_normalize_name "rotki.eth" = Some normal_name
        /\ ex_resolver_down 1000 ["resolver"] "resolver" [42] = Err RemoteError)
  \/ (exists normal_name resolver deserialized,
        ex_normalize_name "rotki.eth" = Some normal_name
        /\ ex_resolver_down 1000 ["resolver"] "resolver" [42] = Ok (Some resolver)
        /\ Some resolver = Some deserialized
        /\ ex_resolver_down deserialized ["addr"] "addr" [42] = Err RemoteError).
Proof.
  apply (ens_lookup_errors ex_normalize_name (fun _ => 42) (fun a => Some a)
           (fun _ => 0) 1000 ["resolver"] ["addr"] ["addr_multichain"] ex_resolver_down
           ex_resolver_down_bytes "rotki.eth" ETHEREUM RemoteError).
  reflexivity.
Defined.

(** X29 on Bitcoin: the multichain call returns 20 zero bytes and the
    lookup returns forty zeros. *)
Lemma ens_lookup_other_chain_bytes_witness :
  _ens_lookup ex_normalize_name (fun _ => 42) (fun a => Some a) (fun _ => 0) 1000
    ["resolver"] ["addr"] ["addr_multichain"] ex_call_contract ex_call_contract_bytes
    "rotki.eth" BITCOIN
  = Ok (Some (EnsHex "0000000000000000000000000000000000000000")).
Proof.
  exact (ens_lookup_other_chain_bytes ex_normalize_name (fun _ => 42) (fun a => Some a)
           (fun _ => 0) 1000 ["resolver"] ["addr"] ["addr_multichain"] ex_call_contract
           ex_call_contract_bytes "rotki.eth" "rotki.eth" BITCOIN 77 77 (repeat Byte.x00 20)
           eq_refl eq_refl ltac:(discriminate) eq_refl eq_refl eq_refl).
Defined.
